(** * stock-tech-patterns: chart pattern analysis behind a message queue

    A shallow embedding of [app/processor.py], [app/output_handler.py] and
    [app/queue_handler.py].

    - Python values that come out of [json.loads] are the inductive [json];
      a [dict] is the list of its items, and the result dictionaries the
      program builds are values of the same type.
    - [close_prices] is a numpy array of float64: a list of Rocq's primitive
      binary64 floats, so that division by zero, signed zeros, infinities
      and NaN behave as they do in numpy.
    - Raising, [try]/[except] and the calls that reach the outside (logger,
      [print], [publish_to_queue], the pika channel) are a small monad [py]
      that carries the list of calls made so far and either a value or the
      exception in flight. *)

From Stdlib Require Import String List ZArith Bool Arith Lia Floats Sorted.
Import ListNotations.

Set Implicit Arguments.
Set Warnings "-register-all".
Local Open Scope string_scope.
Local Open Scope nat_scope.
Local Open Scope list_scope.

(** ** Python values *)

Inductive json : Type :=
| JNull                                        (* None *)
| JBool (b : bool)
| JInt (z : Z)                                 (* int, unbounded *)
| JFloat (f : float)                           (* float: binary64 *)
| JStr (s : string)
| JArr (items : list json)                     (* list *)
| JObj (members : list (string * json)).       (* dict: its items *)

Definition type_name (v : json) : string :=
  match v with
  | JNull => "NoneType"
  | JBool _ => "bool"
  | JInt _ => "int"
  | JFloat _ => "float"
  | JStr _ => "str"
  | JArr _ => "list"
  | JObj _ => "dict"
  end.

Fixpoint lookup (key : string) (members : list (string * json)) : option json :=
  match members with
  | [] => None
  | (k, v) :: rest => if String.eqb k key then Some v else lookup key rest
  end.

(** [bool(v)]: what [not v] tests. *)
Definition truthy (v : json) : bool :=
  match v with
  | JNull => false
  | JBool b => b
  | JInt z => negb (Z.eqb z 0)
  | JFloat f => negb (PrimFloat.eqb f 0%float)
  | JStr s => negb (String.eqb s "")
  | JArr items => negb (Nat.eqb (length items) 0)
  | JObj members => negb (Nat.eqb (length members) 0)
  end.

(** ** Exceptions, calls to the outside, and the monad of the embedding *)

Inductive exn_class : Type :=
| ValueError | TypeError | AttributeError | OverflowError | OSError
| JSONDecodeError | UnicodeDecodeError | ConnectionError | AMQPConnectionError.

(** An exception: its class and [str(e)]. *)
Record exn : Type := Exn { exn_cls : exn_class; exn_str : string }.

Definition is_JSONDecodeError (e : exn) : bool :=
  match exn_cls e with JSONDecodeError => true | _ => false end.

Inductive level : Type := INFO | WARNING | ERROR.

(** The calls the program makes to its surroundings, in the order made. A
    logger call is kept with its level and format string; [print] and
    [publish_to_queue] with the value handed over ([json.dumps] of a value of
    type [json] cannot fail, and the text it renders is not modelled: the call
    carries the value itself). *)
Inductive event : Type :=
| Log (lvl : level) (fmt : string)
| Print (rendered : json)
| PublishToQueue (batch : list json)
| BasicAck
| BasicNack (requeue : bool)
| BlockingConnection
| Sleep (seconds : Z).

Inductive outcome (A : Type) : Type :=
| Returns (a : A)
| Raises (e : exn).
Arguments Raises {A} e.

Definition py (A : Type) : Type := (list event * outcome A)%type.

Definition ret {A} (a : A) : py A := ([], Returns a).
Definition raise {A} (e : exn) : py A := ([], Raises e).
Definition call (ev : event) : py unit := ([ev], Returns tt).

Definition bind {A B} (c : py A) (k : A -> py B) : py B :=
  match c with
  | (tr, Returns a) => let (tr', r) := k a in (tr ++ tr', r)
  | (tr, Raises e) => (tr, Raises e)
  end.

(** [try: body / except Exception as e: handler e]. *)
Definition try_except {A} (body : py A) (handler : exn -> py A) : py A :=
  match body with
  | (tr, Returns a) => (tr, Returns a)
  | (tr, Raises e) => let (tr', r) := handler e in (tr ++ tr', r)
  end.

(** A library call that returns or raises without calling out. *)
Definition lift {A} (r : exn + A) : py A :=
  match r with
  | inl e => raise e
  | inr a => ret a
  end.

Declare Scope py_scope.
Delimit Scope py_scope with py.
Notation "x <- c ;; k" := (bind c (fun x => k))
  (at level 61, c at next level, right associativity) : py_scope.
Notation "c ;;; k" := (bind c (fun _ => k))
  (at level 61, right associativity) : py_scope.
Local Open Scope py_scope.

Definition trace {A} (c : py A) : list event := fst c.
Definition result {A} (c : py A) : outcome A := snd c.

(** [d.get(key, default)]; only a dict has the method. *)
Definition get (d : json) (key : string) (default : json) : py json :=
  match d with
  | JObj members =>
      ret (match lookup key members with Some v => v | None => default end)
  | _ => raise (Exn AttributeError
                  ("'" ++ type_name d ++ "' object has no attribute 'get'")%string)
  end.

(** ** float64 arithmetic of the detection step *)

Definition nan : float := PrimFloat.nan.

(** The literal [0.02]: the double nearest to 2/100. *)
Definition threshold : float := 0x1.47ae147ae147bp-6%float.

(** [x[i]] on a float64 array, used at indices inside the array only. *)
Definition at_ (x : list float) (i : nat) : float := nth i x nan.

(** [l[-k]], for [1 <= k <= len(l)]. *)
Definition from_end {A} (l : list A) (k : nat) (d : A) : A :=
  nth (length l - k) l d.

(** [l[-k:]]. *)
Definition last_n {A} (k : nat) (l : list A) : list A :=
  skipn (length l - k) l.

(** [x[idx]] with an index array: [close_prices[peaks]]. *)
Definition take (x : list float) (idx : list nat) : list float :=
  map (at_ x) idx.

(** ** [scipy.signal.find_peaks(x)] without conditions

    The call in [analyze_patterns] passes no height, distance, prominence or
    width, so the peaks are the midpoints that scipy's [_local_maxima_1d]
    yields: a sample, or a run of equal samples, whose neighbours on both
    sides are smaller; of a run the middle index, rounded down. The two
    [while] loops of that scan run on fuel bounded by the array length. *)

Fixpoint look_ahead (fuel : nat) (x : list float) (i i_ahead i_max : nat) : nat :=
  match fuel with
  | O => i_ahead
  | S fuel' =>
      if (i_ahead <? i_max) && PrimFloat.eqb (at_ x i_ahead) (at_ x i)
      then look_ahead fuel' x i (i_ahead + 1) i_max
      else i_ahead
  end.

Fixpoint local_maxima (fuel : nat) (x : list float) (i i_max : nat) : list nat :=
  match fuel with
  | O => []
  | S fuel' =>
      if i <? i_max then
        if PrimFloat.ltb (at_ x (i - 1)) (at_ x i) then
          let i_ahead := look_ahead (length x) x i (i + 1) i_max in
          if PrimFloat.ltb (at_ x i_ahead) (at_ x i) then
            let left_edge := i in
            let right_edge := i_ahead - 1 in
            ((left_edge + right_edge) / 2) :: local_maxima fuel' x (i_ahead + 1) i_max
          else local_maxima fuel' x (i + 1) i_max
        else local_maxima fuel' x (i + 1) i_max
      else []
  end.

Definition find_peaks (x : list float) : list nat :=
  local_maxima (length x) x 1 (length x - 1).

(** [-close_prices]. *)
Definition negated (x : list float) : list float := map PrimFloat.opp x.

(** ** The pattern checks of [analyze_patterns] (processor.py, lines 51-84) *)

Definition peaks_of (close_prices : list float) : list nat :=
  find_peaks close_prices.

Definition valleys_of (close_prices : list float) : list nat :=
  find_peaks (negated close_prices).

(** The test shared by the Double Top and Double Bottom blocks:
    [np.abs(v[-1] - v[-2]) / v[-2] < 0.02]. *)
Definition close_pair (values : list float) : bool :=
  let diff := PrimFloat.abs (PrimFloat.sub (from_end values 1 nan)
                                           (from_end values 2 nan)) in
  PrimFloat.ltb (PrimFloat.div diff (from_end values 2 nan)) threshold.

Definition double_top (close_prices : list float) : list string :=
  let peaks := peaks_of close_prices in
  if 2 <=? length peaks then
    let peak_values := take close_prices peaks in
    if close_pair peak_values then ["Double Top"] else []
  else [].

Definition double_bottom (close_prices : list float) : list string :=
  let valleys := valleys_of close_prices in
  if 2 <=? length valleys then
    let valley_values := take close_prices valleys in
    if close_pair valley_values then ["Double Bottom"] else []
  else [].

Definition gt (a b : float) : bool := PrimFloat.ltb b a.

Definition head_and_shoulders (close_prices : list float) : list string :=
  let peaks := peaks_of close_prices in
  let valleys := valleys_of close_prices in
  if (3 <=? length peaks) && (2 <=? length valleys) then
    let last3_peaks := take close_prices (last_n 3 peaks) in
    let last2_valleys := take close_prices (last_n 2 valleys) in
    if gt (nth 1 last3_peaks nan) (nth 0 last3_peaks nan)
       && gt (nth 1 last3_peaks nan) (nth 2 last3_peaks nan)
       && PrimFloat.ltb (nth 0 last2_valleys nan) (nth 1 last3_peaks nan)
       && PrimFloat.ltb (nth 1 last2_valleys nan) (nth 1 last3_peaks nan)
    then ["Head and Shoulders"] else []
  else [].

(** [patterns] as it stands after the three blocks. *)
Definition patterns_of (close_prices : list float) : list string :=
  double_top close_prices ++ double_bottom close_prices
    ++ head_and_shoulders close_prices.

Definition json_strs (l : list string) : json := JArr (map JStr l).
Definition json_ints (l : list nat) : json := JArr (map (fun i => JInt (Z.of_nat i)) l).

(** The [result] dictionary of the success path (lines 86-94). *)
Definition success_result (symbol : json) (close_prices : list float) : json :=
  let patterns := patterns_of close_prices in
  JObj [ ("symbol", symbol);
         ("analysis_type", JStr "chart_patterns");
         ("analysis_data",
           JObj [ ("patterns",
                    json_strs (match patterns with
                               | [] => ["No recognizable patterns"]
                               | _ => patterns
                               end));
                  ("peaks", json_ints (peaks_of close_prices));
                  ("valleys", json_ints (valleys_of close_prices)) ]) ].

(** The dictionary returned by the [except] block (lines 101-105). *)
Definition failure_result (symbol : json) (e : exn) : json :=
  JObj [ ("symbol", symbol);
         ("analysis_type", JStr "chart_patterns");
         ("error", JStr (exn_str e)) ].

(** ** pandas: the frame built from [data] and its close column

    A frame is kept as its rows, each row the labelled cells it was given; a
    label is a column of the frame when some row has it, and a row without it
    holds NaN there. Columns labelled by position (those of a list of scalars
    or of lists) are not kept: line 47 of processor.py only asks whether a
    column is labelled ["close"], and neither of its tests tells such a frame
    from one without columns. *)

Definition record : Type := list (string * json).
Definition frame : Type := list record.

Definition columns (df : frame) : list string := flat_map (map fst) df.

Definition has_column (label : string) (df : frame) : bool :=
  existsb (String.eqb label) (columns df).

(** [df.empty]. *)
Definition empty (df : frame) : bool :=
  (length df =? 0) || (length (columns df) =? 0).

(** [df[label]]: one cell per row, [None] where the row has no such key. *)
Definition column (label : string) (df : frame) : list (option json) :=
  map (lookup label) df.

Fixpoint traverse {A B} (f : A -> exn + B) (l : list A) : exn + list B :=
  match l with
  | [] => inr []
  | a :: rest =>
      match f a with
      | inl e => inl e
      | inr b =>
          match traverse f rest with
          | inl e => inl e
          | inr bs => inr (b :: bs)
          end
      end
  end.

(** The items of a list as records, when every one of them is a dict. *)
Fixpoint records_of (items : list json) : option (list record) :=
  match items with
  | [] => Some []
  | JObj members :: rest =>
      match records_of rest with
      | Some recs => Some (members :: recs)
      | None => None
      end
  | _ :: _ => None
  end.

(** [float(z)] for a Python int: the nearest double, ties to even, and
    OverflowError beyond the range of doubles. *)
Definition float_of_int (z : Z) : exn + float :=
  match binary_normalize prec emax z 0 false with
  | S754_infinity _ => inl (Exn OverflowError "int too large to convert to float")
  | sf => inr (SF2Prim sf)
  end.

Section Analysis.

(** Library behaviour that the embedding takes as given:
    - [float_of_str s] is Python's [float(s)] on a [str], [None] where it
      raises ValueError;
    - [DataFrame_of_other] is what the pandas constructor makes of a dict
      (its column orientation) and of a list that holds an item that is not
      a dict, shapes the queue's messages do not use and on which the
      versions of pandas differ;
    - [print_raises] and [publish_raises] say whether [print] and
      [publish_to_queue] (app/queue_sender.py) raise when the result sink
      calls them, and what. Logger calls do not raise: the logging module
      handles its own errors. *)
Variable float_of_str : string -> option float.
Variable DataFrame_of_other : json -> exn + frame.
Variable print_raises : option exn.
Variable publish_raises : option exn.

(** [pd.DataFrame(price_data)] for a truthy [price_data]. A list of dicts is
    read as records, one row each; a scalar is refused. *)
Definition DataFrame (price_data : json) : exn + frame :=
  match price_data with
  | JArr items =>
      match records_of items with
      | Some recs => inr recs
      | None => DataFrame_of_other price_data
      end
  | JObj _ => DataFrame_of_other price_data
  | _ => inl (Exn ValueError "DataFrame constructor not properly called!")
  end.

(** One cell of [df["close"].astype(float)]. *)
Definition to_float (cell : option json) : exn + float :=
  match cell with
  | None => inr nan
  | Some JNull => inr nan
  | Some (JBool b) => inr (if b then 1%float else 0%float)
  | Some (JInt z) => float_of_int z
  | Some (JFloat f) => inr f
  | Some (JStr s) =>
      match float_of_str s with
      | Some f => inr f
      | None => inl (Exn ValueError
                       ("could not convert string to float: '" ++ s ++ "'")%string)
      end
  | Some (JArr _) => inl (Exn ValueError "setting an array element with a sequence.")
  | Some (JObj _) =>
      inl (Exn TypeError "float() argument must be a string or a real number, not 'dict'")
  end.

Definition astype_float (cells : list (option json)) : exn + list float :=
  traverse to_float cells.

(** *** output_handler.py *)

Definition print (formatted_output : json) : py unit :=
  call (Print formatted_output) ;;;
  match print_raises with
  | Some e => raise e
  | None => ret tt
  end.

Definition publish_to_queue (batch : list json) : py unit :=
  call (PublishToQueue batch) ;;;
  match publish_raises with
  | Some e => raise e
  | None => ret tt
  end.

Definition send_to_output (data : json) : py unit :=
  try_except
    (let formatted_output := data in
     call (Log INFO "Sending data to output:\n%s") ;;;
     print formatted_output ;;;
     publish_to_queue [data])
    (fun e => call (Log ERROR "Failed to send output: %s")).

(** *** processor.py *)

(** Lines 43-50 read as one function: the close prices of a request, or the
    exception that rejects it. [analyze_patterns] below spells the lines
    out; [analyze_patterns_dict] relates the two. *)
Definition close_prices_of (price_data : json) : exn + list float :=
  if negb (truthy price_data)
  then inl (Exn ValueError "Missing 'data' field.")
  else
    match DataFrame price_data with
    | inl e => inl e
    | inr df =>
        if empty df || negb (has_column "close" df)
        then inl (Exn ValueError "Data must contain non-empty 'close' prices.")
        else astype_float (column "close" df)
    end.

Definition analyze_patterns (data : json) : py json :=
  try_except
    (symbol <- get data "symbol" (JStr "UNKNOWN") ;;
     price_data <- get data "data" JNull ;;
     if negb (truthy price_data)
     then raise (Exn ValueError "Missing 'data' field.")
     else
       df <- lift (DataFrame price_data) ;;
       if empty df || negb (has_column "close" df)
       then raise (Exn ValueError "Data must contain non-empty 'close' prices.")
       else
         close_prices <- lift (astype_float (column "close" df)) ;;
         call (Log INFO "Found %d peaks and %d valleys for %s") ;;;
         let result := success_result symbol close_prices in
         send_to_output result ;;;
         ret result)
    (fun e =>
       logged_symbol <- get data "symbol" (JStr "UNKNOWN") ;;
       call (Log ERROR "Pattern analysis failed for symbol %s") ;;;
       symbol <- get data "symbol" (JStr "UNKNOWN") ;;
       ret (failure_result symbol e)).

(** *** queue_handler.py: the RabbitMQ callback

    [json.loads] is the standard library's: a delivery is given by what it
    does on the body, the decoded value or the exception it raises
    (JSONDecodeError for text that is not JSON; UnicodeDecodeError, which is
    not a JSONDecodeError, for bytes that are not text). The channel's
    [basic_ack] and [basic_nack] are pika's: [ack_raises] and [nack_raises]
    say whether they raise when the callback calls them, and what.
    [basic_ack] is called inside the [try], so its exception reaches the
    [except] clauses; [basic_nack] is called inside a handler, so its
    exception leaves the callback. *)
Definition channel_call (ev : event) (raises : option exn) : py unit :=
  call ev ;;;
  match raises with
  | Some e => raise e
  | None => ret tt
  end.

Definition callback (ack_raises nack_raises : option exn) (loaded : outcome json)
  : py unit :=
  try_except
    (message <- ([], loaded) ;;
     call (Log INFO "Received message: %s") ;;;
     analyze_patterns message ;;;
     channel_call BasicAck ack_raises)
    (fun e =>
       if is_JSONDecodeError e
       then call (Log ERROR "Invalid JSON: %s") ;;;
            channel_call (BasicNack false) nack_raises
       else call (Log ERROR "Error processing message: %s") ;;;
            channel_call (BasicNack true) nack_raises).

End Analysis.

(** *** queue_handler.py: connecting to RabbitMQ

    One call of [pika.BlockingConnection(params)] either raises or returns a
    connection, open or not. A run of [_connect_to_rabbitmq] is driven by the
    outcomes of its successive calls; [None] means the run asked for more
    calls than the script holds. *)

Record connection : Type := Connection { conn_id : nat; is_open : bool }.

Inductive attempt : Type :=
| Fails (e : exn)
| Connects (conn : connection).

Fixpoint connect_loop (script : list attempt) (retries : nat) (done : list event)
  : option (py connection) :=
  match retries with
  | O => Some (done, Raises (Exn ConnectionError "Could not connect to RabbitMQ after retries"))
  | S retries' =>
      match script with
      | [] => None
      | Fails e :: rest =>
          connect_loop rest retries'
            (done ++ [BlockingConnection;
                      Log WARNING "RabbitMQ connection failed: %s. Retrying in 5s...";
                      Sleep 5])
      | Connects conn :: rest =>
          if is_open conn
          then Some (done ++ [BlockingConnection; Log INFO "Connected to RabbitMQ"],
                     Returns conn)
          else connect_loop rest retries (done ++ [BlockingConnection])
      end
  end.

Definition _connect_to_rabbitmq (script : list attempt) : option (py connection) :=
  connect_loop script 5 [].

(** ** Vocabulary of the properties *)

(** [d.get(key, default)] on the items of a dict. *)
Definition field (key : string) (members : list (string * json)) (default : json) : json :=
  match lookup key members with
  | Some v => v
  | None => default
  end.

(** [key in r] for a result dictionary. *)
Definition has_key (key : string) (r : json) : bool :=
  match r with
  | JObj members => match lookup key members with Some _ => true | None => false end
  | _ => false
  end.

(** The acknowledgements among the calls of a run. *)
Definition is_acknowledgement (ev : event) : bool :=
  match ev with
  | BasicAck | BasicNack _ => true
  | _ => false
  end.

Definition acknowledgements (tr : list event) : list event :=
  filter is_acknowledgement tr.

(** The acknowledgement calls of one run of the callback, by what
    [json.loads] did and whether [basic_ack] raises: a [basic_ack] that
    raises is followed by the [basic_nack] of the handler its exception
    reaches. *)
Definition nack_for (e : exn) : event := BasicNack (negb (is_JSONDecodeError e)).

Definition answers (ack_raises : option exn) (loaded : outcome json) : list event :=
  match loaded with
  | Raises e => [nack_for e]
  | Returns (JObj _) =>
      BasicAck :: match ack_raises with
                  | Some e => [nack_for e]
                  | None => []
                  end
  | Returns _ => [BasicNack true]
  end.

(** The calls of the [except] clause that an exception of the [try] body
    reaches, and how a call that may raise ends. *)
Definition handler_calls (e : exn) : list event :=
  if is_JSONDecodeError e
  then [Log ERROR "Invalid JSON: %s"; BasicNack false]
  else [Log ERROR "Error processing message: %s"; BasicNack true].

Definition outcome_of (raises : option exn) : outcome unit :=
  match raises with
  | Some e => Raises e
  | None => Returns tt
  end.

(** Whether that run calls [basic_nack]. *)
Definition nacked (ack_raises : option exn) (loaded : outcome json) : bool :=
  match loaded, ack_raises with
  | Returns (JObj _), None => false
  | _, _ => true
  end.

(** The connection attempts of a run, and the delays it slept. *)
Definition attempts (tr : list event) : nat :=
  length (filter (fun ev => match ev with BlockingConnection => true | _ => false end) tr).

Definition sleeps (tr : list event) : list Z :=
  flat_map (fun ev => match ev with Sleep s => [s] | _ => [] end) tr.

(** A list of records as the [data] of a message. *)
Definition rows_of (recs : list record) : json := JArr (map JObj recs).

(** The samples at [l..r] are equal, the one before is smaller and so is the
    one after, and the run ends before [i_max]: what one pass of the scan in
    [local_maxima] looks for. *)
Definition flat_peak (x : list float) (i_max l r : nat) : Prop :=
  l <= r /\ r < i_max /\
  PrimFloat.ltb (at_ x (l - 1)) (at_ x l) = true /\
  (forall j, l < j <= r -> PrimFloat.eqb (at_ x j) (at_ x l) = true) /\
  PrimFloat.ltb (at_ x (r + 1)) (at_ x l) = true.

(** A run of equal closes at [l..r], inside the series, with a smaller close
    on each side. *)
Definition peak_run (x : list float) (l r : nat) : Prop :=
  1 <= l /\ l <= r /\ r + 1 < length x /\
  PrimFloat.ltb (at_ x (l - 1)) (at_ x l) = true /\
  (forall j, l < j <= r -> PrimFloat.eqb (at_ x j) (at_ x l) = true) /\
  PrimFloat.ltb (at_ x (r + 1)) (at_ x l) = true.

(** The same with a larger close on each side. *)
Definition valley_run (x : list float) (l r : nat) : Prop :=
  1 <= l /\ l <= r /\ r + 1 < length x /\
  PrimFloat.ltb (at_ x l) (at_ x (l - 1)) = true /\
  (forall j, l < j <= r -> PrimFloat.eqb (at_ x j) (at_ x l) = true) /\
  PrimFloat.ltb (at_ x l) (at_ x (r + 1)) = true.

(** The strict tests of the specification at one index. *)
Definition strict_max (x : list float) (i : nat) : bool :=
  PrimFloat.ltb (at_ x (i - 1)) (at_ x i) && PrimFloat.ltb (at_ x (i + 1)) (at_ x i).

Definition strict_min (x : list float) (i : nat) : bool :=
  PrimFloat.ltb (at_ x i) (at_ x (i - 1)) && PrimFloat.ltb (at_ x i) (at_ x (i + 1)).

Definition interior (x : list float) (i : nat) : Prop :=
  1 <= i /\ i + 1 < length x.

(** No two neighbouring closes are equal. *)
Definition no_flat (x : list float) : bool :=
  forallb (fun j => negb (PrimFloat.eqb (at_ x j) (at_ x (j + 1))))
          (seq 0 (length x - 1)).

(** The two relative-difference checks, told apart by the extrema they use. *)
Inductive kind : Type := Peak | Valley.

Definition extrema (k : kind) (close_prices : list float) : list nat :=
  match k with
  | Peak => peaks_of close_prices
  | Valley => valleys_of close_prices
  end.

Definition double_label (k : kind) : string :=
  match k with
  | Peak => "Double Top"
  | Valley => "Double Bottom"
  end.

(** The values the check of kind [k] compares: the close at the most recent
    extremum and at the one before it, the reference. *)
Definition last_value (k : kind) (x : list float) : float :=
  at_ x (from_end (extrema k x) 1 0).

Definition reference (k : kind) (x : list float) : float :=
  at_ x (from_end (extrema k x) 2 0).

(** What the check compares with 0.02: [np.abs(last - ref) / ref]. *)
Definition quotient (k : kind) (x : list float) : float :=
  PrimFloat.div (PrimFloat.abs (PrimFloat.sub (last_value k x) (reference k x)))
                (reference k x).

(** ** Surroundings of the concrete runs

    The runs evaluated below pass messages whose [data] is a list of dicts
    and whose cells hold no str, so neither library parameter is consulted;
    both are fixed to reject. In a quiet run none of [print],
    [publish_to_queue], [basic_ack] and [basic_nack] raises. *)

Definition str_rejected : string -> option float := fun _ => None.

Definition other_rejected : json -> exn + frame :=
  fun _ => inl (Exn ValueError "If using all scalar values, you must pass an index").

Definition quiet_analysis : json -> py json :=
  analyze_patterns str_rejected other_rejected None None.

Definition quiet_callback : outcome json -> py unit :=
  callback str_rejected other_rejected None None None None.

(** A channel that is closed: what pika raises on a call made on it. *)
Definition channel_closed : exn := Exn OSError "Channel is closed.".

Definition close_row (c : float) : json := JObj [("close", JFloat c)].

(** The calls one run of [send_to_output] makes, by what [print] and
    [publish_to_queue] do. *)
Definition sink_calls (print_raises publish_raises : option exn) (data : json)
  : list event :=
  [Log INFO "Sending data to output:\n%s"; Print data]
  ++ match print_raises with
     | Some _ => []
     | None => [PublishToQueue [data]]
     end
  ++ match print_raises, publish_raises with
     | None, None => []
     | _, _ => [Log ERROR "Failed to send output: %s"]
     end.

(** The calls of one failed connection attempt. *)
Definition failed_attempt : list event :=
  [BlockingConnection;
   Log WARNING "RabbitMQ connection failed: %s. Retrying in 5s...";
   Sleep 5].

Definition gave_up : exn :=
  Exn ConnectionError "Could not connect to RabbitMQ after retries".

Definition refused : attempt := Fails (Exn AMQPConnectionError "Connection refused").

(** Membership in a concrete list of calls. *)
Ltac not_among :=
  simpl; intuition (try discriminate; try congruence).

(** ** queue_handler.py and main.py: the consumers

    The consumers call the broker besides what the callback does. A run of a
    consumer is the list of its steps, each a call of the analysis side
    ([event]) or a call on the pika channel, the pika connection or the SQS
    client, and the way it ends: it returns, an exception is in flight, or a
    KeyboardInterrupt is (which [except Exception] does not catch). *)

Inductive broker_call : Type :=
| OpenChannel                                  (* connection.channel() *)
| ExchangeDeclare
| QueueDeclare
| QueueBind
| BasicConsume
| StartConsuming
| StopConsuming
| CloseConnection                              (* connection.close() *)
| ReceiveMessage                               (* sqs_client.receive_message *)
| DeleteMessage (receipt_handle : string).     (* sqs_client.delete_message *)

Inductive step : Type :=
| Did (ev : event)
| Broker (c : broker_call).

Inductive ending (A : Type) : Type :=
| Done (a : A)
| Failed (e : exn)
| Interrupted.
Arguments Failed {A} e.
Arguments Interrupted {A}.

Definition run (A : Type) : Type := (list step * ending A)%type.

Definition done {A} (a : A) : run A := ([], Done a).
Definition fail {A} (e : exn) : run A := ([], Failed e).
Definition does (s : step) : run unit := ([s], Done tt).
Definition log (lvl : level) (fmt : string) : run unit := does (Did (Log lvl fmt)).

(** A run of the analysis side inside a consumer. *)
Definition of_py {A} (c : py A) : run A :=
  (map Did (fst c),
   match snd c with
   | Returns a => Done a
   | Raises e => Failed e
   end).

Definition and_then {A B} (c : run A) (k : A -> run B) : run B :=
  match c with
  | (tr, Done a) => let (tr', r) := k a in (tr ++ tr', r)
  | (tr, Failed e) => (tr, Failed e)
  | (tr, Interrupted) => (tr, Interrupted)
  end.

(** [try: body / except Exception as e: handler e]. *)
Definition except_Exception {A} (body : run A) (handler : exn -> run A) : run A :=
  match body with
  | (tr, Failed e) => let (tr', r) := handler e in (tr ++ tr', r)
  | _ => body
  end.

(** [try: body / except KeyboardInterrupt: handler]. *)
Definition except_KeyboardInterrupt {A} (body : run A) (handler : run A) : run A :=
  match body with
  | (tr, Interrupted) => let (tr', r) := handler in (tr ++ tr', r)
  | _ => body
  end.

(** [try: body / finally: cleanup]: the cleanup runs however the body ends,
    and the body's ending stands unless the cleanup itself does not return. *)
Definition finally {A} (body : run A) (cleanup : run unit) : run A :=
  let (tr, r) := body in
  match cleanup with
  | (tr', Done _) => (tr ++ tr', r)
  | (tr', Failed e) => (tr ++ tr', Failed e)
  | (tr', Interrupted) => (tr ++ tr', Interrupted)
  end.

Declare Scope run_scope.
Delimit Scope run_scope with run.
Notation "x <- c ;; k" := (and_then c (fun x => k))
  (at level 61, c at next level, right associativity) : run_scope.
Notation "c ;;; k" := (and_then c (fun _ => k))
  (at level 61, right associativity) : run_scope.

(** One delivery: what [json.loads(body)] does, whether [basic_ack] and
    [basic_nack] raise when the callback calls them for it, and whether a
    KeyboardInterrupt arrives while its callback runs: [Some n] when it
    arrives after [n] calls of the callback (after all of them when it makes
    fewer). *)
Record delivery : Type := Delivery {
  loads : outcome json;
  ack_fails : option exn;
  nack_fails : option exn;
  interrupted_after : option nat
}.

(** How [channel.start_consuming()] ends once the deliveries are handled: it
    returns (the consumer was cancelled), the user interrupts it while it
    waits, or the connection fails. *)
Inductive consuming_end : Type :=
| ConsumingReturns
| ConsumingInterrupted
| ConsumingFails (e : exn).

(** One SQS message as the service delivers it, with its three keys: what
    [json.loads(msg["Body"])] does, its receipt handle and id, and whether
    [delete_message] raises when called for it. *)
Record sqs_message : Type := SqsMessage {
  loaded_body : outcome json;
  ReceiptHandle : string;
  MessageId : string;
  delete_raises : option exn
}.

(** One call of [receive_message]: a response with its messages (none when
    the key is absent), an exception, or an interrupt during the wait. *)
Inductive poll : Type :=
| PollReturns (messages : list sqs_message)
| PollFails (e : exn)
| PollInterrupted.

(** A consumer that may still be running when the scripted behaviour of its
    broker is used up: the steps made, and the ending if there is one. *)
Definition service : Type := (list step * option (ending unit))%type.

Definition finished (c : run unit) : service := (fst c, Some (snd c)).

(** The configuration and what the brokers do during one run of the
    process. *)
Record world : Type := World {
  QUEUE_TYPE : string;
  rabbitmq_attempts : list attempt;
  rabbitmq_deliveries : list delivery;
  rabbitmq_end : consuming_end;
  sqs_client : bool;
  SQS_QUEUE_URL : string;
  sqs_polls : list poll
}.

Section Consumers.

Variable float_of_str : string -> option float.
Variable DataFrame_of_other : json -> exn + frame.
Variable print_raises : option exn.
Variable publish_raises : option exn.

(** Whether a call on the channel raises while the topology is set up. *)
Variable setup_raises : broker_call -> option exn.

Local Open Scope run_scope.

Definition broker (c : broker_call) (raises : option exn) : run unit :=
  does (Broker c) ;;;
  match raises with
  | Some e => fail e
  | None => done tt
  end.

Definition setup (c : broker_call) : run unit := broker c (setup_raises c).

(** One run of the callback inside [start_consuming]. None of the [except
    Exception] clauses of the callback, of [analyze_patterns] and of
    [send_to_output] catches a KeyboardInterrupt: the calls made before it
    arrives are made, and the interrupt leaves the callback. *)
Definition on_delivery (d : delivery) : run unit :=
  let c := callback float_of_str DataFrame_of_other print_raises publish_raises
             (ack_fails d) (nack_fails d) (loads d) in
  match interrupted_after d with
  | Some n => (map Did (firstn n (fst c)), Interrupted)
  | None => of_py c
  end.

(** pika calls the callback once per delivery, in order, from inside
    [start_consuming]; an exception or an interrupt that leaves the callback
    leaves [start_consuming], and the later deliveries are not made. *)
Fixpoint deliver (deliveries : list delivery) : run unit :=
  match deliveries with
  | [] => done tt
  | d :: rest => on_delivery d ;;; deliver rest
  end.

Definition start_consuming (deliveries : list delivery) (stop : consuming_end)
  : run unit :=
  does (Broker StartConsuming) ;;;
  deliver deliveries ;;;
  match stop with
  | ConsumingReturns => done tt
  | ConsumingInterrupted => ([], Interrupted)
  | ConsumingFails e => fail e
  end.

Definition _consume_rabbitmq (script : list attempt)
  (deliveries : list delivery) (stop : consuming_end) : service :=
  match _connect_to_rabbitmq script with
  | None => ([], None)
  | Some connecting =>
      finished
        (connection <- of_py connecting ;;
         setup OpenChannel ;;;
         setup ExchangeDeclare ;;;
         setup QueueDeclare ;;;
         setup QueueBind ;;;
         setup BasicConsume ;;;
         log INFO "Waiting for messages from RabbitMQ..." ;;;
         finally
           (except_KeyboardInterrupt
              (start_consuming deliveries stop)
              (log INFO "Stopping RabbitMQ consumer..." ;;;
               does (Broker StopConsuming)))
           (does (Broker CloseConnection) ;;;
            log INFO "RabbitMQ connection closed."))
  end.

(** The body of the [for] loop of [_consume_sqs] (lines 154-165). *)
Definition process_message (msg : sqs_message) : run unit :=
  except_Exception
    (body <- of_py ([], loaded_body msg) ;;
     log INFO "Received SQS message: %s" ;;;
     of_py (analyze_patterns float_of_str DataFrame_of_other print_raises publish_raises
              body) ;;;
     broker (DeleteMessage (ReceiptHandle msg)) (delete_raises msg) ;;;
     log INFO "Deleted SQS message: %s")
    (fun e => log ERROR "Error processing SQS message: %s").

Fixpoint process_messages (messages : list sqs_message) : run unit :=
  match messages with
  | [] => done tt
  | msg :: rest => process_message msg ;;; process_messages rest
  end.

(** One turn of the [while True] loop (lines 146-168). *)
Definition poll_once (p : poll) : run unit :=
  except_Exception
    (response <- (does (Broker ReceiveMessage) ;;;
                  match p with
                  | PollReturns messages => done messages
                  | PollFails e => fail e
                  | PollInterrupted => ([], Interrupted)
                  end) ;;
     process_messages response)
    (fun e => log ERROR "SQS polling failed: %s" ;;; does (Did (Sleep 5))).

(** The loop over the scripted polls; it goes on after a turn that
    returned. *)
Fixpoint polling (polls : list poll) : service :=
  match polls with
  | [] => ([], None)
  | p :: rest =>
      match poll_once p with
      | (tr, Done _) => let (tr', r) := polling rest in (tr ++ tr', r)
      | (tr, stopped) => (tr, Some stopped)
      end
  end.

Definition _consume_sqs (client : bool) (url : string) (polls : list poll) : service :=
  if negb client || negb (truthy (JStr url))
  then finished (log ERROR "SQS not initialized or missing queue URL.")
  else
    let (tr, r) := polling polls in
    (Did (Log INFO "Polling for SQS messages...") :: tr, r).

Definition consume_messages (w : world) : service :=
  if String.eqb (QUEUE_TYPE w) "rabbitmq"
  then _consume_rabbitmq (rabbitmq_attempts w) (rabbitmq_deliveries w) (rabbitmq_end w)
  else if String.eqb (QUEUE_TYPE w) "sqs"
  then _consume_sqs (sqs_client w) (SQS_QUEUE_URL w) (sqs_polls w)
  else finished (log ERROR "Invalid QUEUE_TYPE specified. Use 'rabbitmq' or 'sqs'.").

(** main.py. *)
Definition main (w : world) : service :=
  let (tr, r) := consume_messages w in
  match r with
  | None => (Did (Log INFO "Starting stock-tech-patterns processor...") :: tr, None)
  | Some stopped =>
      finished
        (log INFO "Starting stock-tech-patterns processor..." ;;;
         except_Exception
           (except_KeyboardInterrupt
              (tr, stopped)
              (log INFO "Chart pattern processor stopped by user."))
           (fun e => log ERROR "Fatal error occurred: %s"))
  end.

End Consumers.

(** ** Vocabulary of the further properties *)

(** The close at the [k]-th most recent peak, and valley. *)
Definition peak_value (x : list float) (k : nat) : float :=
  at_ x (from_end (peaks_of x) k 0).

Definition valley_value (x : list float) (k : nat) : float :=
  at_ x (from_end (valleys_of x) k 0).

(** [r["analysis_data"]["patterns"]]. *)
Definition reported_patterns (r : json) : option json :=
  match r with
  | JObj members =>
      match lookup "analysis_data" members with
      | Some (JObj analysis_data) => lookup "patterns" analysis_data
      | _ => None
      end
  | _ => None
  end.

Definition label_order : list string :=
  ["Double Top"; "Double Bottom"; "Head and Shoulders"; "No recognizable patterns"].

(** The failed attempts of a script, and whether it holds an open
    connection. *)
Definition raising (script : list attempt) : list attempt :=
  filter (fun a => match a with Fails _ => true | Connects _ => false end) script.

Definition none_open (script : list attempt) : bool :=
  forallb (fun a => match a with Fails _ => true | Connects c => negb (is_open c) end)
          script.

(** The calls of the analysis side among the steps of a consumer, the calls
    on the broker, and the receipt handles it deleted. *)
Definition calls (tr : list step) : list event :=
  flat_map (fun s => match s with Did ev => [ev] | Broker _ => [] end) tr.

Definition broker_calls (tr : list step) : list broker_call :=
  flat_map (fun s => match s with Did _ => [] | Broker c => [c] end) tr.

Definition deleted (tr : list step) : list string :=
  flat_map (fun s => match s with Broker (DeleteMessage h) => [h] | _ => [] end) tr.

(** A delivery whose callback nothing disturbs. *)
Definition delivered (loaded : outcome json) : delivery :=
  Delivery loaded None None None.

(** The acknowledgement calls made for a delivery whose callback runs to its
    end. *)
Definition answered (d : delivery) : list event := answers (ack_fails d) (loads d).

(** How the callback of a delivery ends: it returns, an interrupt leaves it,
    or the exception of its [basic_nack] does. *)
Definition callback_end (d : delivery) : consuming_end :=
  match interrupted_after d with
  | Some _ => ConsumingInterrupted
  | None =>
      if nacked (ack_fails d) (loads d)
      then match nack_fails d with
           | Some e => ConsumingFails e
           | None => ConsumingReturns
           end
      else ConsumingReturns
  end.

Definition returns (d : delivery) : bool :=
  match callback_end d with
  | ConsumingReturns => true
  | _ => false
  end.


Definition ending_of (c : consuming_end) : ending unit :=
  match c with
  | ConsumingReturns => Done tt
  | ConsumingInterrupted => Interrupted
  | ConsumingFails e => Failed e
  end.

Definition decodes_to_dict (loaded : outcome json) : bool :=
  match loaded with
  | Returns (JObj _) => true
  | _ => false
  end.

Definition poll_failed (p : poll) : bool :=
  match p with PollFails _ => true | _ => false end.

Definition poll_interrupted (p : poll) : bool :=
  match p with PollInterrupted => true | _ => false end.

(** A setup in which no call on the channel raises. *)
Definition setup_succeeds : broker_call -> option exn := fun _ => None.

(** The number of [receive_message] calls among the steps. *)
Definition receives (tr : list step) : nat :=
  length (filter (fun c => match c with ReceiveMessage => true | _ => false end)
                 (broker_calls tr)).

(** The receipt handles of the messages of a batch whose body decodes to a
    dict. *)
Definition handles_of_dicts (messages : list sqs_message) : list string :=
  map ReceiptHandle (filter (fun m => decodes_to_dict (loaded_body m)) messages).

(** The steps that are the SQS consumer's own: its calls on the client and its
    three log lines, the calls of the analysis left out. *)
Definition sqs_log (fmt : string) : bool :=
  existsb (String.eqb fmt)
    ["Received SQS message: %s"; "Deleted SQS message: %s";
     "Error processing SQS message: %s"].

Definition own_steps (tr : list step) : list step :=
  filter (fun s => match s with
                   | Broker _ => true
                   | Did (Log _ fmt) => sqs_log fmt
                   | Did _ => false
                   end) tr.

(** What the consumer does with one message, by what [json.loads] made of its
    body and whether [delete_message] raised. *)
Definition handling (msg : sqs_message) : list step :=
  match loaded_body msg with
  | Raises _ => [Did (Log ERROR "Error processing SQS message: %s")]
  | Returns (JObj _) =>
      [Did (Log INFO "Received SQS message: %s");
       Broker (DeleteMessage (ReceiptHandle msg));
       match delete_raises msg with
       | None => Did (Log INFO "Deleted SQS message: %s")
       | Some _ => Did (Log ERROR "Error processing SQS message: %s")
       end]
  | Returns _ =>
      [Did (Log INFO "Received SQS message: %s");
       Did (Log ERROR "Error processing SQS message: %s")]
  end.


Definition topology : list broker_call :=
  [OpenChannel; ExchangeDeclare; QueueDeclare; QueueBind; BasicConsume].

Definition sample_message (loaded : outcome json) (handle : string) : sqs_message :=
  SqsMessage loaded handle "id" None.

(** Concrete surroundings for the consumers: one open connection, three
    deliveries, a setup whose queue_bind is refused, and two
    configurations. *)
Definition open_at_once : list attempt := [Connects (Connection 1 true)].

Definition connected : list event := [BlockingConnection; Log INFO "Connected to RabbitMQ"].

Definition three_deliveries : list delivery :=
  [delivered (Returns (JObj [("symbol", JStr "AAPL")]));
   delivered (Raises (Exn JSONDecodeError "Expecting value: line 1 column 1 (char 0)"));
   Delivery (Returns (JObj [("symbol", JStr "MSFT")])) (Some channel_closed) None None].

(** A delivery during whose callback the user interrupts, after its first
    call. *)
Definition interrupted_delivery : delivery :=
  Delivery (Returns (JArr [])) None None (Some 1).

Definition bind_refused : broker_call -> option exn :=
  fun c => match c with
           | QueueBind => Some (Exn OSError "ACCESS_REFUSED")
           | _ => None
           end.

Definition unreachable_rabbitmq : world :=
  World "rabbitmq" (repeat refused 5) [] ConsumingReturns false "" [].

Definition unknown_queue : world :=
  World "kafka" [] [] ConsumingReturns false "" [].

(** * Properties *)

(** ** Order facts on binary64, from the specification of the primitives *)

Lemma SFcompare_antisym (a b : spec_float) :
  SFcompare b a = option_map CompOpp (SFcompare a b).
Proof.
  destruct a as [sa|sa| |sa ma ea], b as [sb|sb| |sb mb eb]; simpl;
    try reflexivity; try (destruct sa; reflexivity); try (destruct sb; reflexivity);
    try (destruct sa, sb; reflexivity).
  destruct sa, sb; simpl; try reflexivity;
    rewrite (Z.compare_antisym ea eb);
    destruct (ea ?= eb)%Z; simpl; try reflexivity;
    change (PosDef.Pos.compare_cont Eq) with Pos.compare;
    rewrite (Pos.compare_antisym ma mb); reflexivity.
Qed.

Lemma SFcompare_opp (a b : spec_float) :
  SFcompare (SFopp a) (SFopp b) = SFcompare b a.
Proof.
  rewrite (SFcompare_antisym a b).
  destruct a as [sa|sa| |sa ma ea], b as [sb|sb| |sb mb eb]; simpl;
    try reflexivity; try (destruct sa; reflexivity); try (destruct sb; reflexivity);
    try (destruct sa, sb; reflexivity).
  destruct sa, sb; simpl; try reflexivity;
    destruct (ea ?= eb)%Z; simpl; try reflexivity.
  rewrite CompOpp_involutive. reflexivity.
Qed.

(** Two values that compare equal are the same value, or two zeros. *)
Lemma SFcompare_Eq_inv (a c : spec_float) :
  SFcompare a c = Some Eq ->
  a = c \/ exists s s', a = S754_zero s /\ c = S754_zero s'.
Proof.
  destruct a as [sa|sa| |sa ma ea], c as [sc|sc| |sc mc ec]; simpl; intros H;
    try discriminate.
  - right. eauto.
  - destruct sc; discriminate.
  - destruct sc; discriminate.
  - destruct sa; discriminate.
  - destruct sa, sc; try discriminate; now left.
  - destruct sa; discriminate.
  - destruct sa; discriminate.
  - destruct sc; discriminate.
  - left. destruct sa, sc; try discriminate;
      destruct (ea ?= ec)%Z eqn:E; try discriminate;
      apply Z.compare_eq in E; subst ec;
      change (PosDef.Pos.compare_cont Eq) with Pos.compare in H;
      destruct (ma ?= mc)%positive eqn:M; try discriminate;
      apply Pos.compare_eq in M; subst mc; reflexivity.
Qed.

Lemma SFcompare_Eq_left (a c y : spec_float) :
  SFcompare a c = Some Eq -> SFcompare a y = SFcompare c y.
Proof.
  intros H. destruct (SFcompare_Eq_inv a c H) as [->|(s & s' & -> & ->)].
  - reflexivity.
  - destruct y; reflexivity.
Qed.

Lemma ltb_asym (a b : float) :
  PrimFloat.ltb a b = true -> PrimFloat.ltb b a = false.
Proof.
  rewrite !ltb_spec. unfold SFltb.
  rewrite (SFcompare_antisym (Prim2SF a) (Prim2SF b)).
  destruct (SFcompare (Prim2SF a) (Prim2SF b)) as [[| |]|]; simpl; congruence.
Qed.

Lemma ltb_not_eqb (a b : float) :
  PrimFloat.ltb a b = true -> PrimFloat.eqb a b = false.
Proof.
  rewrite ltb_spec, eqb_spec. unfold SFltb, SFeqb.
  destruct (SFcompare (Prim2SF a) (Prim2SF b)) as [[| |]|]; congruence.
Qed.

Lemma eqb_sym (a b : float) : PrimFloat.eqb a b = PrimFloat.eqb b a.
Proof.
  rewrite !eqb_spec. unfold SFeqb.
  rewrite (SFcompare_antisym (Prim2SF a) (Prim2SF b)).
  destruct (SFcompare (Prim2SF a) (Prim2SF b)) as [[| |]|]; reflexivity.
Qed.

(** A value equal to [c] stands to any [b] as [c] does. *)
Lemma eqb_ltb_left (a b c : float) :
  PrimFloat.eqb a c = true -> PrimFloat.ltb a b = PrimFloat.ltb c b.
Proof.
  rewrite eqb_spec, !ltb_spec. unfold SFeqb, SFltb. intros H.
  rewrite (@SFcompare_Eq_left (Prim2SF a) (Prim2SF c) (Prim2SF b)); [reflexivity|].
  destruct (SFcompare (Prim2SF a) (Prim2SF c)) as [[| |]|]; congruence.
Qed.

Lemma ltb_opp (a b : float) :
  PrimFloat.ltb (PrimFloat.opp a) (PrimFloat.opp b) = PrimFloat.ltb b a.
Proof. rewrite !ltb_spec, !opp_spec. unfold SFltb. now rewrite SFcompare_opp. Qed.

Lemma eqb_opp (a b : float) :
  PrimFloat.eqb (PrimFloat.opp a) (PrimFloat.opp b) = PrimFloat.eqb a b.
Proof.
  rewrite (eqb_sym a b), !eqb_spec, !opp_spec. unfold SFeqb.
  now rewrite SFcompare_opp.
Qed.

Lemma abs_of_positive (x : float) :
  PrimFloat.ltb 0 x = true -> PrimFloat.abs x = x.
Proof.
  rewrite ltb_spec. intros H. apply Prim2SF_inj. rewrite abs_spec.
  change (Prim2SF 0) with (S754_zero false) in H.
  destruct (Prim2SF x) as [s|s| |s m e]; simpl in *; try discriminate;
    destruct s; simpl in *; try discriminate; reflexivity.
Qed.

(** Dividing a magnitude by +0.0 gives +inf or NaN, neither below 0.02. *)
Lemma quotient_by_zero_not_below (d : float) :
  PrimFloat.ltb (PrimFloat.div (PrimFloat.abs d) 0) threshold = false.
Proof.
  rewrite ltb_spec, div_spec, abs_spec.
  change (Prim2SF 0) with (S754_zero false).
  destruct (Prim2SF d) as [s|s| |s m e]; vm_compute; reflexivity.
Qed.

Lemma quotient_by_zero (d : float) :
  PrimFloat.div (PrimFloat.abs d) 0 = infinity
  \/ PrimFloat.is_nan (PrimFloat.div (PrimFloat.abs d) 0) = true.
Proof.
  assert (Q : Prim2SF (PrimFloat.div (PrimFloat.abs d) 0) = S754_infinity false
              \/ Prim2SF (PrimFloat.div (PrimFloat.abs d) 0) = S754_nan).
  { rewrite div_spec, abs_spec. change (Prim2SF 0) with (S754_zero false).
    destruct (Prim2SF d) as [s|s| |s m e]; vm_compute; auto. }
  destruct Q as [Q|Q].
  - left. apply Prim2SF_inj. rewrite Q. reflexivity.
  - right. unfold PrimFloat.is_nan. rewrite eqb_spec, Q. reflexivity.
Qed.

(** Rounding keeps the sign it is given. *)
Lemma binary_round_aux_sign (s : bool) (m e : Z) (l : location) :
  binary_round_aux prec emax s m e l = S754_nan
  \/ binary_round_aux prec emax s m e l = S754_zero s
  \/ binary_round_aux prec emax s m e l = S754_infinity s
  \/ exists m' e', binary_round_aux prec emax s m e l = S754_finite s m' e'.
Proof.
  unfold binary_round_aux.
  destruct (shr_fexp prec emax m e l) as [mrs e1].
  destruct (shr_fexp prec emax _ e1 loc_Exact) as [mrs' e2].
  destruct (shr_m mrs').
  - auto.
  - destruct (e2 <=? emax - prec)%Z; [right; right; right; eauto|].
    right. right. left. reflexivity.
  - auto.
Qed.

(** A magnitude divided by a negative value is negative, a negative zero or
    -inf, all below 0.02, unless it is NaN. *)
Lemma quotient_by_negative (d ref : float) :
  PrimFloat.ltb ref 0 = true ->
  PrimFloat.ltb (PrimFloat.div (PrimFloat.abs d) ref) threshold = true
  \/ PrimFloat.eqb (PrimFloat.div (PrimFloat.abs d) ref)
                   (PrimFloat.div (PrimFloat.abs d) ref) = false.
Proof.
  rewrite eqb_spec, !ltb_spec, div_spec, abs_spec.
  change (Prim2SF 0) with (S754_zero false).
  change (Prim2SF threshold) with (S754_finite false 5764607523034235 (-58)).
  destruct (Prim2SF ref) as [sr|sr| |sr mr er]; simpl; try discriminate;
    destruct sr; try discriminate; intros _;
    destruct (Prim2SF d) as [sd|sd| |sd md ed]; simpl; auto.
  unfold SF64div, SFdiv.
  destruct (SFdiv_core_binary prec emax (Z.pos md) ed (Z.pos mr) er) as [[mz ez] lz].
  cbn [xorb].
  destruct (binary_round_aux_sign true mz ez lz) as [E|[E|[E|(m' & e' & E)]]];
    rewrite E; auto.
Qed.

(** ** [find_peaks]: what the scan reports *)

Lemma look_ahead_spec (x : list float) (i i_max : nat) :
  forall fuel a, a <= i_max -> i_max <= a + fuel ->
    let s := look_ahead fuel x i a i_max in
    a <= s <= i_max /\
    (forall j, a <= j < s -> PrimFloat.eqb (at_ x j) (at_ x i) = true) /\
    (s = i_max \/ PrimFloat.eqb (at_ x s) (at_ x i) = false).
Proof.
  induction fuel as [|fuel IH]; intros a Ha Hf; simpl.
  - repeat split; lia.
  - destruct (a <? i_max) eqn:Hlt; simpl.
    + apply Nat.ltb_lt in Hlt.
      destruct (PrimFloat.eqb (at_ x a) (at_ x i)) eqn:Heq.
      * destruct (IH (a + 1)) as (H1 & H2 & H3); try lia.
        repeat split; try lia; auto.
        intros j Hj. destruct (Nat.eq_dec j a) as [->|Hne]; auto.
        apply H2. lia.
      * repeat split; try lia. now right.
    + apply Nat.ltb_ge in Hlt. repeat split; lia.
Qed.

Section Scan.

Variable x : list float.
Variable i_max : nat.

(** Where the look-ahead from a rising edge at [i] stops. *)
Variables i s : nat.
Hypothesis rise : PrimFloat.ltb (at_ x (i - 1)) (at_ x i) = true.
Hypothesis s_range : i + 1 <= s <= i_max.
Hypothesis s_run :
  forall j, i + 1 <= j < s -> PrimFloat.eqb (at_ x j) (at_ x i) = true.
Hypothesis s_stop : s = i_max \/ PrimFloat.eqb (at_ x s) (at_ x i) = false.

Lemma run_at_rise_ends_at_stop (r : nat) :
  flat_peak x i_max i r -> r + 1 = s.
Proof.
  intros (Hlr & Hr & _ & Heq & Hfall).
  destruct (Nat.lt_trichotomy (r + 1) s) as [Hlt|[Heq'|Hgt]]; auto; exfalso.
  - apply ltb_not_eqb in Hfall. rewrite s_run in Hfall by lia. discriminate.
  - destruct s_stop as [->|Hstop]; [lia|].
    rewrite Heq in Hstop by lia. discriminate.
Qed.

Lemma edge_inside_run (l : nat) :
  i < l <= s ->
  PrimFloat.ltb (at_ x (l - 1)) (at_ x l) = PrimFloat.ltb (at_ x i) (at_ x l).
Proof.
  intros Hl. destruct (Nat.eq_dec (l - 1) i) as [->|Hne]; [reflexivity|].
  apply eqb_ltb_left. apply s_run. lia.
Qed.

Lemma no_run_inside (l r : nat) :
  PrimFloat.ltb (at_ x s) (at_ x i) = true ->
  i < l <= s -> ~ flat_peak x i_max l r.
Proof.
  intros Hfall Hl (_ & _ & Hrise & _).
  rewrite edge_inside_run in Hrise by assumption.
  destruct (Nat.eq_dec l s) as [->|Hne].
  - apply ltb_asym in Hfall. congruence.
  - apply ltb_not_eqb in Hrise. rewrite eqb_sym, s_run in Hrise by lia.
    discriminate.
Qed.

Lemma run_of_fall :
  PrimFloat.ltb (at_ x s) (at_ x i) = true -> flat_peak x i_max i (s - 1).
Proof.
  intros Hfall. repeat split; try lia; auto.
  - intros j Hj. apply s_run. lia.
  - replace (s - 1 + 1) with s by lia. exact Hfall.
Qed.

End Scan.

Lemma local_maxima_spec (x : list float) (i_max : nat) :
  i_max <= length x ->
  forall fuel i, i_max <= i + fuel ->
  forall m, In m (local_maxima fuel x i i_max) <->
            exists l r, i <= l /\ flat_peak x i_max l r /\ m = (l + r) / 2.
Proof.
  intros Hmax. induction fuel as [|fuel IH]; intros i Hf m; simpl.
  - split; [tauto|]. intros (l & r & Hl & (Hlr & Hr & _) & _). lia.
  - destruct (i <? i_max) eqn:Hlt.
    2:{ apply Nat.ltb_ge in Hlt. split; [simpl; tauto|].
        intros (l & r & Hl & (Hlr & Hr & _) & _). lia. }
    apply Nat.ltb_lt in Hlt.
    destruct (PrimFloat.ltb (at_ x (i - 1)) (at_ x i)) eqn:Hrise.
    2:{ rewrite IH by lia. split; intros (l & r & Hl & Hrun & Hm).
        - exists l, r. split; [lia|split; assumption].
        - exists l, r. split; [|split; assumption].
          destruct (Nat.eq_dec l i) as [->|Hne]; [|lia].
          destruct Hrun as (_ & _ & Hrise' & _). congruence. }
    destruct (@look_ahead_spec x i i_max (length x) (i + 1)) as (Hs1 & Hs2 & Hs3);
      try lia.
    set (s := look_ahead (length x) x i (i + 1) i_max) in *.
    destruct (PrimFloat.ltb (at_ x s) (at_ x i)) eqn:Hfall.
    + simpl. rewrite IH by lia. split.
      * intros [<-|(l & r & Hl & Hrun & Hm)].
        -- exists i, (s - 1). split; [lia|split; [|reflexivity]].
           apply (@run_of_fall x i_max i s Hrise Hs1 Hs2 Hs3 Hfall).
        -- exists l, r. split; [lia|split; assumption].
      * intros (l & r & Hl & Hrun & Hm).
        destruct (Nat.eq_dec l i) as [->|Hne].
        -- left. pose proof (@run_at_rise_ends_at_stop x i_max i s Hs1 Hs2 Hs3 r Hrun).
           subst m. replace (s - 1) with r by lia. reflexivity.
        -- right. exists l, r. split; [|split; assumption].
           destruct (le_lt_dec l s) as [Hle|Hgt]; [|lia].
           exfalso. apply (@no_run_inside x i_max i s Hs1 Hs2 Hs3 l r Hfall); [lia|assumption].
    + rewrite IH by lia. split; intros (l & r & Hl & Hrun & Hm).
      * exists l, r. split; [lia|split; assumption].
      * exists l, r. split; [|split; assumption].
        destruct (Nat.eq_dec l i) as [->|Hne]; [|lia].
        pose proof (@run_at_rise_ends_at_stop x i_max i s Hs1 Hs2 Hs3 r Hrun) as E.
        destruct Hrun as (_ & _ & _ & _ & Hfall'). rewrite E in Hfall'. congruence.
Qed.

Lemma find_peaks_spec (x : list float) (m : nat) :
  In m (find_peaks x) <-> exists l r, peak_run x l r /\ m = (l + r) / 2.
Proof.
  unfold find_peaks. rewrite local_maxima_spec by lia.
  split; intros (l & r & H); exists l, r; unfold peak_run, flat_peak in *;
    intuition lia.
Qed.

Lemma at_negated (x : list float) (j : nat) :
  at_ (negated x) j = PrimFloat.opp (at_ x j).
Proof.
  unfold at_, negated.
  change nan with (PrimFloat.opp nan) at 1. apply map_nth.
Qed.

Lemma length_negated (x : list float) : length (negated x) = length x.
Proof. apply length_map. Qed.

Lemma peak_run_negated (x : list float) (l r : nat) :
  peak_run (negated x) l r <-> valley_run x l r.
Proof.
  unfold peak_run, valley_run. rewrite length_negated.
  split; intros (H1 & H2 & H3 & H4 & H5 & H6); repeat split; auto.
  - now rewrite !at_negated, ltb_opp in H4.
  - intros j Hj. specialize (H5 j Hj). now rewrite !at_negated, eqb_opp in H5.
  - now rewrite !at_negated, ltb_opp in H6.
  - now rewrite !at_negated, ltb_opp.
  - intros j Hj. rewrite !at_negated, eqb_opp. auto.
  - now rewrite !at_negated, ltb_opp.
Qed.

Lemma peaks_of_spec (x : list float) (m : nat) :
  In m (peaks_of x) <-> exists l r, peak_run x l r /\ m = (l + r) / 2.
Proof. apply find_peaks_spec. Qed.

Lemma valleys_of_spec (x : list float) (m : nat) :
  In m (valleys_of x) <-> exists l r, valley_run x l r /\ m = (l + r) / 2.
Proof.
  unfold valleys_of. rewrite find_peaks_spec.
  split; intros (l & r & H & Hm); exists l, r; split; auto;
    now apply peak_run_negated.
Qed.

Lemma midpoint_in_run (l r : nat) : l <= r -> l <= (l + r) / 2 <= r.
Proof.
  intros H. split.
  - apply Nat.div_le_lower_bound; lia.
  - apply Nat.Div0.div_le_upper_bound; lia.
Qed.

Lemma no_flat_at (x : list float) (j : nat) :
  no_flat x = true -> j + 1 < length x ->
  PrimFloat.eqb (at_ x j) (at_ x (j + 1)) = false.
Proof.
  unfold no_flat. rewrite forallb_forall. intros H Hj.
  apply negb_true_iff, H, in_seq. lia.
Qed.

Lemma no_flat_run (x : list float) (l r : nat) :
  no_flat x = true ->
  l <= r -> r + 1 < length x ->
  (forall j, l < j <= r -> PrimFloat.eqb (at_ x j) (at_ x l) = true) ->
  r = l.
Proof.
  intros Hflat Hlr Hr Heq.
  destruct (Nat.eq_dec r l) as [|Hne]; auto. exfalso.
  pose proof (@no_flat_at x l Hflat ltac:(lia)) as H.
  rewrite eqb_sym, Heq in H by lia. discriminate.
Qed.

Lemma double_is_midpoint (m : nat) : (m + m) / 2 = m.
Proof. replace (m + m) with (m * 2) by lia. apply Nat.div_mul. lia. Qed.

(** ** Peaks and valleys (C7) *)

Lemma run_midpoint_interior (x : list float) (l r : nat) :
  1 <= l -> l <= r -> r + 1 < length x -> interior x ((l + r) / 2).
Proof.
  intros H1 H2 H3. pose proof (midpoint_in_run H2). unfold interior. lia.
Qed.

Lemma peaks_without_flats (x : list float) (m : nat) :
  no_flat x = true ->
  In m (peaks_of x) <-> interior x m /\ strict_max x m = true.
Proof.
  intros Hflat. rewrite peaks_of_spec. unfold strict_max, interior.
  rewrite andb_true_iff. split.
  - intros (l & r & (H1 & H2 & H3 & H4 & H5 & H6) & ->).
    assert (r = l) by (apply (@no_flat_run x l r); auto). subst r.
    rewrite double_is_midpoint. auto.
  - intros ((H1 & H2) & H3 & H4). exists m, m. split.
    + repeat split; auto. intros j Hj. lia.
    + now rewrite double_is_midpoint.
Qed.

Lemma valleys_without_flats (x : list float) (m : nat) :
  no_flat x = true ->
  In m (valleys_of x) <-> interior x m /\ strict_min x m = true.
Proof.
  intros Hflat. rewrite valleys_of_spec. unfold strict_min, interior.
  rewrite andb_true_iff. split.
  - intros (l & r & (H1 & H2 & H3 & H4 & H5 & H6) & ->).
    assert (r = l) by (apply (@no_flat_run x l r); auto). subst r.
    rewrite double_is_midpoint. auto.
  - intros ((H1 & H2) & H3 & H4). exists m, m. split.
    + repeat split; auto. intros j Hj. lia.
    + now rewrite double_is_midpoint.
Qed.

(** C7 (claim as stated, refuted). The series [1, 3, 3, 1] has no index whose
    close is strictly above both neighbours (close[1] = close[2]), yet
    [find_peaks] reports index 1, the middle of the flat top, rounded down:
    the peaks are not exactly the strict local maxima. *)
Lemma flat_top_is_a_peak :
  peaks_of [1; 3; 3; 1]%float = [1]
  /\ strict_max [1; 3; 3; 1]%float 1 = false
  /\ strict_max [1; 3; 3; 1]%float 2 = false.
Proof. repeat split; reflexivity. Qed.

(** C7 (amended). For every series the peaks are exactly the middle indices
    (rounded down) of the runs of equal closes that lie inside the series and
    have a strictly smaller close on each side, and the valleys those of the
    runs with a strictly larger close on each side; index 0 and the last
    index are never reported; where no two neighbouring closes are equal, the
    peaks are exactly the interior indices i with close[i] > close[i-1] and
    close[i] > close[i+1] and the valleys the strict minima; for
    [1, 3, 1, 3, 1] the peaks are [1, 3] and the valleys [2]. *)
Theorem extrema_are_flat_runs (x : list float) :
  (forall m, In m (peaks_of x) <-> exists l r, peak_run x l r /\ m = (l + r) / 2)
  /\ (forall m, In m (valleys_of x) <-> exists l r, valley_run x l r /\ m = (l + r) / 2)
  /\ (forall m, In m (peaks_of x) \/ In m (valleys_of x) -> interior x m)
  /\ (no_flat x = true ->
      forall m,
        (In m (peaks_of x) <-> interior x m /\ strict_max x m = true)
        /\ (In m (valleys_of x) <-> interior x m /\ strict_min x m = true))
  /\ peaks_of [1; 3; 1; 3; 1]%float = [1; 3]
  /\ valleys_of [1; 3; 1; 3; 1]%float = [2].
Proof.
  split; [|split; [|split; [|split; [|split]]]].
  - apply peaks_of_spec.
  - apply valleys_of_spec.
  - intros m [H|H].
    + apply peaks_of_spec in H. destruct H as (l & r & (H1 & H2 & H3 & _) & ->).
      now apply run_midpoint_interior.
    + apply valleys_of_spec in H. destruct H as (l & r & (H1 & H2 & H3 & _) & ->).
      now apply run_midpoint_interior.
  - intros Hflat m. split.
    + now apply peaks_without_flats.
    + now apply valleys_without_flats.
  - reflexivity.
  - reflexivity.
Qed.

Lemma extrema_are_flat_runs_witness :
  no_flat [1; 3; 1; 3; 1]%float = true
  /\ (In 3 (peaks_of [1; 3; 1; 3; 1]%float)
      <-> interior [1; 3; 1; 3; 1]%float 3 /\ strict_max [1; 3; 1; 3; 1]%float 3 = true).
Proof.
  split; [reflexivity|].
  apply (proj1 (proj2 (proj2 (proj2 (extrema_are_flat_runs [1; 3; 1; 3; 1]%float)))));
    reflexivity.
Defined.

(** ** The relative-difference checks (C3, C4) *)

Lemma from_end_take (x : list float) (idx : list nat) (k : nat) :
  1 <= k -> k <= length idx ->
  from_end (take x idx) k nan = at_ x (from_end idx k 0).
Proof.
  intros H1 H2. unfold from_end, take. rewrite length_map.
  rewrite (nth_indep _ nan (at_ x 0)) by (rewrite length_map; lia).
  apply map_nth.
Qed.

Lemma close_pair_take (x : list float) (idx : list nat) :
  2 <= length idx ->
  close_pair (take x idx)
  = PrimFloat.ltb
      (PrimFloat.div
         (PrimFloat.abs (PrimFloat.sub (at_ x (from_end idx 1 0)) (at_ x (from_end idx 2 0))))
         (at_ x (from_end idx 2 0)))
      threshold.
Proof.
  intros H. unfold close_pair. now rewrite !from_end_take by lia.
Qed.

Lemma double_label_fires (k : kind) (x : list float) :
  2 <= length (extrema k x) ->
  In (double_label k) (patterns_of x) <-> close_pair (take x (extrema k x)) = true.
Proof.
  intros H. apply Nat.leb_le in H.
  unfold patterns_of, double_top, double_bottom, head_and_shoulders.
  rewrite !in_app_iff.
  destruct k; simpl in *; rewrite ?H;
    repeat match goal with
           | |- context [if ?b then _ else _] => destruct b
           end; simpl; intuition congruence.
Qed.

(** X1. For every series with fewer than two peaks (resp. valleys), Double Top
    (resp. Double Bottom) never fires. *)
Theorem few_extrema_no_double (k : kind) (x : list float) :
  length (extrema k x) < 2 -> ~ In (double_label k) (patterns_of x).
Proof.
  intros H. apply Nat.leb_gt in H.
  unfold patterns_of, double_top, double_bottom, head_and_shoulders.
  rewrite !in_app_iff.
  destruct k; simpl in *; rewrite ?H;
    repeat match goal with
           | |- context [if ?b then _ else _] => destruct b
           end; simpl; intuition congruence.
Qed.

Lemma few_extrema_no_double_witness :
  length (extrema Valley [1; 3; 1; 3; 1]%float) < 2
  /\ ~ In "Double Bottom" (patterns_of [1; 3; 1; 3; 1]%float).
Proof.
  assert (H : length (extrema Valley [1; 3; 1; 3; 1]%float) < 2)
    by (vm_compute; lia).
  split; [exact H|].
  exact (few_extrema_no_double Valley [1; 3; 1; 3; 1]%float H).
Defined.

Lemma double_label_quotient (k : kind) (x : list float) :
  2 <= length (extrema k x) ->
  In (double_label k) (patterns_of x)
  <-> PrimFloat.ltb (quotient k x) threshold = true.
Proof.
  intros H. rewrite double_label_fires by assumption.
  rewrite close_pair_take by assumption. reflexivity.
Qed.

(** C3 (claim as stated, refuted). In [-200, -100, -200, -10, -200] the peaks
    are at 1 and 3, with closes -100 (the reference) and -10. The stated
    formula gives |-10 - -100| / |-100| = 0.9, not below 0.02, yet the code
    divides by -100 itself, gets -0.9 < 0.02, and Double Top fires: the sign
    of the reference changes which pairs match. *)
Lemma negative_reference_matches :
  peaks_of [-200; -100; -200; -10; -200]%float = [1; 3]
  /\ In "Double Top" (patterns_of [-200; -100; -200; -10; -200]%float)
  /\ PrimFloat.ltb
       (PrimFloat.div (PrimFloat.abs (PrimFloat.sub (-10) (-100)))
                      (PrimFloat.abs (-100)))
       threshold = false.
Proof. repeat split; try reflexivity. left. reflexivity. Qed.

(** C3 (amended). For every series with at least two peaks (resp. valleys),
    Double Top (resp. Double Bottom) fires iff
    |last - second_last| / second_last < 0.02, the denominator being the
    second-most-recent peak (resp. valley) value itself, with its sign. When
    that value is positive this is the test with its absolute value as the
    denominator; when it is negative the label fires whatever the
    difference, unless the quotient is NaN. *)
Theorem double_check_signed_reference (k : kind) (x : list float) :
  2 <= length (extrema k x) ->
  (In (double_label k) (patterns_of x)
   <-> PrimFloat.ltb (quotient k x) threshold = true)
  /\ (PrimFloat.ltb 0 (reference k x) = true ->
      (In (double_label k) (patterns_of x)
       <-> PrimFloat.ltb
             (PrimFloat.div
                (PrimFloat.abs (PrimFloat.sub (last_value k x) (reference k x)))
                (PrimFloat.abs (reference k x)))
             threshold = true))
  /\ (PrimFloat.ltb (reference k x) 0 = true ->
      In (double_label k) (patterns_of x)
      \/ PrimFloat.eqb (quotient k x) (quotient k x) = false).
Proof.
  intros H. pose proof (double_label_quotient k x H) as E.
  split; [exact E|]. split.
  - intros Hpos. rewrite (abs_of_positive Hpos). exact E.
  - intros Hneg. unfold quotient in *.
    destruct (quotient_by_negative
                (PrimFloat.sub (last_value k x) (reference k x)) Hneg) as [Q|Q].
    + left. now apply E.
    + now right.
Qed.

Lemma double_check_signed_reference_witness :
  2 <= length (extrema Valley [3; 1; 3; 1; 3]%float)
  /\ (In "Double Bottom" (patterns_of [3; 1; 3; 1; 3]%float)
      <-> PrimFloat.ltb (quotient Valley [3; 1; 3; 1; 3]%float) threshold = true).
Proof.
  assert (H : 2 <= length (extrema Valley [3; 1; 3; 1; 3]%float))
    by (vm_compute; lia).
  split; [exact H|].
  exact (proj1 (double_check_signed_reference Valley [3; 1; 3; 1; 3]%float H)).
Defined.

(** C4 (claim as stated, refuted). In [-1, -0.0, -1, -0.5, -1] the peaks are
    at 1 and 3; the reference, the close -0.0 at index 1, is exactly zero
    (-0.0 == 0), the code divides 0.5 by it without a guard, gets -inf, which
    is below 0.02, and Double Top fires. *)
Lemma negative_zero_reference_matches :
  peaks_of [-1; neg_zero; -1; -0.5; -1]%float = [1; 3]
  /\ reference Peak [-1; neg_zero; -1; -0.5; -1]%float = neg_zero
  /\ PrimFloat.eqb (reference Peak [-1; neg_zero; -1; -0.5; -1]%float) 0 = true
  /\ In "Double Top" (patterns_of [-1; neg_zero; -1; -0.5; -1]%float).
Proof. repeat split; try reflexivity. left. reflexivity. Qed.

(** ** Connecting with retries (C2) *)

Lemma connect_loop_failures (failures : list exn) :
  forall script retries done,
    length failures <= retries ->
    connect_loop (map Fails failures ++ script) retries done
    = connect_loop script (retries - length failures)
        (done ++ flat_map (fun _ => failed_attempt) failures).
Proof.
  induction failures as [|e failures IH]; intros script retries done H; simpl in *.
  - now rewrite Nat.sub_0_r, app_nil_r.
  - destruct retries as [|retries]; [lia|]. simpl.
    rewrite IH by lia. now rewrite <- app_assoc.
Qed.

Lemma connect_loop_exhausted (script : list attempt) (done : list event) :
  connect_loop script 0 done = Some (done, Raises gave_up).
Proof. destruct script; reflexivity. Qed.

Lemma attempts_app (tr tr' : list event) :
  attempts (tr ++ tr') = attempts tr + attempts tr'.
Proof. unfold attempts. now rewrite filter_app, length_app. Qed.

Lemma sleeps_app (tr tr' : list event) : sleeps (tr ++ tr') = sleeps tr ++ sleeps tr'.
Proof. unfold sleeps. apply flat_map_app. Qed.

Lemma attempts_failures (failures : list exn) :
  attempts (flat_map (fun _ => failed_attempt) failures) = length failures.
Proof.
  induction failures as [|e failures IH]; [reflexivity|].
  unfold attempts in *. simpl. now rewrite IH.
Qed.

Lemma sleeps_failures (failures : list exn) :
  sleeps (flat_map (fun _ => failed_attempt) failures) = repeat 5%Z (length failures).
Proof.
  induction failures as [|e failures IH]; [reflexivity|].
  unfold sleeps in *. simpl. now rewrite IH.
Qed.

(** C2 (claim as stated, refuted). With six failing attempts scripted the run
    raises ConnectionError after making five of them: the sixth attempt is
    never made. With five failures followed by an attempt that would succeed,
    the run still raises after the fifth failure. *)
Lemma no_sixth_attempt :
  option_map (fun run => (attempts (trace run), result run))
             (_connect_to_rabbitmq (repeat refused 6))
  = Some (5, Raises gave_up)
  /\ option_map (fun run => (attempts (trace run), result run))
                (_connect_to_rabbitmq (repeat refused 5 ++ [Connects (Connection 1 true)]))
     = Some (5, Raises gave_up).
Proof. split; reflexivity. Qed.

(** C2 (amended). The connect operation retries on a raised failure and sleeps
    5 seconds after each failed attempt. For every run whose first k < 5
    attempts raise and whose next attempt yields an open connection, it
    returns that connection after k + 1 attempts and k sleeps of 5 seconds.
    For every run whose first 5 attempts raise, it raises ConnectionError
    after the fifth (and a fifth sleep), whatever a further attempt would
    do: no sixth attempt is made. *)
Theorem connect_gives_up_after_five (failures : list exn) (rest : list attempt) :
  (forall conn, is_open conn = true -> length failures < 5 ->
     exists tr,
       _connect_to_rabbitmq (map Fails failures ++ Connects conn :: rest)
       = Some (tr, Returns conn)
       /\ attempts tr = length failures + 1
       /\ sleeps tr = repeat 5%Z (length failures))
  /\ (length failures = 5 ->
      exists tr,
        _connect_to_rabbitmq (map Fails failures ++ rest) = Some (tr, Raises gave_up)
        /\ attempts tr = 5
        /\ sleeps tr = repeat 5%Z 5).
Proof.
  unfold _connect_to_rabbitmq. split.
  - intros conn Hopen Hlen. rewrite connect_loop_failures by lia.
    destruct (5 - length failures) as [|retries] eqn:E; [lia|].
    simpl. rewrite Hopen. eexists. split; [reflexivity|]. split.
    + rewrite attempts_app, attempts_failures. reflexivity.
    + rewrite sleeps_app, sleeps_failures. simpl. now rewrite app_nil_r.
  - intros Hlen. rewrite connect_loop_failures by lia.
    rewrite Hlen, connect_loop_exhausted. eexists. split; [reflexivity|]. split.
    + rewrite attempts_app, attempts_failures. exact Hlen.
    + rewrite sleeps_app, sleeps_failures, Hlen. reflexivity.
Qed.

Lemma connect_gives_up_after_five_witness :
  is_open (Connection 1 true) = true
  /\ length [Exn AMQPConnectionError "a"; Exn AMQPConnectionError "b"] < 5
  /\ exists tr,
       _connect_to_rabbitmq
         (map Fails [Exn AMQPConnectionError "a"; Exn AMQPConnectionError "b"]
            ++ Connects (Connection 1 true) :: [])
       = Some (tr, Returns (Connection 1 true))
       /\ attempts tr = 3
       /\ sleeps tr = [5%Z; 5%Z].
Proof.
  split; [reflexivity|]. split; [simpl; lia|].
  apply (proj1 (connect_gives_up_after_five
                  [Exn AMQPConnectionError "a"; Exn AMQPConnectionError "b"] [])
               (Connection 1 true)); [reflexivity|simpl; lia].
Defined.

(** ** The analysis, the result sink and the callback *)

Section AnalysisFacts.

Variable float_of_str : string -> option float.
Variable DataFrame_of_other : json -> exn + frame.
Variable print_raises : option exn.
Variable publish_raises : option exn.
Variable ack_raises : option exn.
Variable nack_raises : option exn.

Local Abbreviation send := (send_to_output print_raises publish_raises).
Local Abbreviation analyze :=
  (analyze_patterns float_of_str DataFrame_of_other print_raises publish_raises).
Local Abbreviation deliver :=
  (callback float_of_str DataFrame_of_other print_raises publish_raises
     ack_raises nack_raises).
Local Abbreviation closes := (close_prices_of float_of_str DataFrame_of_other).
Local Abbreviation cell_float := (to_float float_of_str).

Lemma send_to_output_run (data : json) :
  send data = (sink_calls print_raises publish_raises data, Returns tt).
Proof.
  unfold send_to_output, print, publish_to_queue, sink_calls.
  destruct print_raises, publish_raises; reflexivity.
Qed.

Lemma analyze_patterns_dict (members : list (string * json)) :
  analyze (JObj members)
  = match closes (field "data" members JNull) with
    | inl e =>
        ([Log ERROR "Pattern analysis failed for symbol %s"],
         Returns (failure_result (field "symbol" members (JStr "UNKNOWN")) e))
    | inr close_prices =>
        (Log INFO "Found %d peaks and %d valleys for %s"
           :: sink_calls print_raises publish_raises
                (success_result (field "symbol" members (JStr "UNKNOWN")) close_prices),
         Returns (success_result (field "symbol" members (JStr "UNKNOWN")) close_prices))
    end.
Proof.
  unfold analyze_patterns, close_prices_of. simpl get. fold (field "symbol" members (JStr "UNKNOWN")).
  fold (field "data" members JNull).
  unfold bind at 1 2. simpl.
  destruct (truthy (field "data" members JNull)); simpl; [|reflexivity].
  destruct (DataFrame DataFrame_of_other (field "data" members JNull)) as [e|df];
    simpl; [reflexivity|].
  destruct (empty df || negb (has_column "close" df)); simpl; [reflexivity|].
  destruct (astype_float float_of_str (column "close" df)) as [e|close_prices];
    simpl; [reflexivity|].
  rewrite send_to_output_run. unfold bind, ret, try_except.
  now rewrite app_nil_r.
Qed.

Lemma analyze_patterns_not_dict (v : json) :
  (forall members, v <> JObj members) ->
  analyze v
  = ([], Raises (Exn AttributeError
                   ("'" ++ type_name v ++ "' object has no attribute 'get'")%string)).
Proof. destruct v; intros H; try reflexivity. now destruct (H members). Qed.

Lemma callback_returns (message : json) :
  deliver (Returns message)
  = match analyze message with
    | (tr, Returns _) =>
        match ack_raises with
        | None => (Log INFO "Received message: %s" :: tr ++ [BasicAck], Returns tt)
        | Some e =>
            (Log INFO "Received message: %s" :: tr ++ BasicAck :: handler_calls e,
             outcome_of nack_raises)
        end
    | (tr, Raises e) =>
        (Log INFO "Received message: %s" :: tr ++ handler_calls e,
         outcome_of nack_raises)
    end.
Proof.
  unfold callback, channel_call, bind, try_except, call, handler_calls, outcome_of.
  simpl.
  destruct (analyze message) as [tr [r|e]]; simpl.
  - destruct ack_raises as [e|]; simpl; [|reflexivity].
    destruct (is_JSONDecodeError e), nack_raises; simpl;
      rewrite <- ?app_assoc; reflexivity.
  - destruct (is_JSONDecodeError e), nack_raises; simpl;
      rewrite <- ?app_assoc; reflexivity.
Qed.

Lemma callback_raises (e : exn) :
  deliver (Raises e) = (handler_calls e, outcome_of nack_raises).
Proof.
  unfold callback, channel_call, bind, try_except, call, handler_calls, outcome_of.
  simpl.
  destruct (is_JSONDecodeError e), nack_raises; reflexivity.
Qed.

Lemma acknowledgements_app (tr tr' : list event) :
  acknowledgements (tr ++ tr') = acknowledgements tr ++ acknowledgements tr'.
Proof. apply filter_app. Qed.

Lemma sink_calls_no_acknowledgement (data : json) :
  acknowledgements (sink_calls print_raises publish_raises data) = [].
Proof. unfold sink_calls. destruct print_raises, publish_raises; reflexivity. Qed.

Lemma analysis_no_acknowledgement (members : list (string * json)) :
  acknowledgements (trace (analyze (JObj members))) = [].
Proof.
  rewrite analyze_patterns_dict.
  destruct (closes (field "data" members JNull)) as [e|close_prices]; simpl.
  - reflexivity.
  - apply sink_calls_no_acknowledgement.
Qed.

Lemma analysis_of_dict_returns (members : list (string * json)) :
  exists r, result (analyze (JObj members)) = Returns r.
Proof.
  rewrite analyze_patterns_dict.
  destruct (closes (field "data" members JNull)); eexists; reflexivity.
Qed.

Lemma handler_calls_acknowledgement (e : exn) :
  acknowledgements (handler_calls e) = [nack_for e].
Proof. unfold handler_calls, nack_for. destruct (is_JSONDecodeError e); reflexivity. Qed.

Lemma callback_on_dict (members : list (string * json)) :
  result (deliver (Returns (JObj members)))
  = match ack_raises with
    | None => Returns tt
    | Some _ => outcome_of nack_raises
    end
  /\ acknowledgements (trace (deliver (Returns (JObj members))))
     = answers ack_raises (Returns (JObj members)).
Proof.
  rewrite callback_returns.
  destruct (analysis_of_dict_returns members) as (r & Hr).
  pose proof (analysis_no_acknowledgement members) as Hack.
  destruct (analyze (JObj members)) as [tr [r'|e]]; simpl in *; [|discriminate].
  destruct ack_raises as [e|]; cbn [result trace fst snd answers];
    (split; [reflexivity|]).
  - change (Log INFO "Received message: %s" :: tr ++ BasicAck :: handler_calls e)
      with ([Log INFO "Received message: %s"] ++ tr ++ [BasicAck] ++ handler_calls e).
    rewrite !acknowledgements_app, Hack, handler_calls_acknowledgement. reflexivity.
  - change (Log INFO "Received message: %s" :: tr ++ [BasicAck])
      with ([Log INFO "Received message: %s"] ++ tr ++ [BasicAck]).
    rewrite !acknowledgements_app, Hack. reflexivity.
Qed.

(** One run of the callback: its acknowledgement calls, how it ends, and its
    first call, which is a logger call. *)
Lemma callback_run (loaded : outcome json) :
  acknowledgements (trace (deliver loaded)) = answers ack_raises loaded
  /\ result (deliver loaded)
     = (if nacked ack_raises loaded then outcome_of nack_raises else Returns tt)
  /\ exists lvl fmt rest, trace (deliver loaded) = Log lvl fmt :: rest.
Proof.
  destruct loaded as [message|e].
  - assert (N : (forall members, message <> JObj members) ->
                acknowledgements (trace (deliver (Returns message))) = [BasicNack true]
                /\ result (deliver (Returns message)) = outcome_of nack_raises
                /\ exists lvl fmt rest,
                     trace (deliver (Returns message)) = Log lvl fmt :: rest).
    { intros H. rewrite callback_returns, (analyze_patterns_not_dict H).
      cbn [trace result fst snd app]. split; [reflexivity|]. split; [reflexivity|].
      eauto. }
    destruct message as [| | | | | |members];
      try (destruct N as (A & R & F); [intros m; discriminate|];
           split; [exact A|]; split; [exact R|exact F]).
    destruct (callback_on_dict members) as (R & A).
    split; [exact A|]. split.
    + rewrite R. destruct ack_raises; reflexivity.
    + rewrite callback_returns.
      destruct (analyze (JObj members)) as [tr [r|e]];
        [destruct ack_raises|]; cbn [trace fst]; eauto.
  - rewrite callback_raises. cbn [trace result fst snd answers nacked].
    split; [apply handler_calls_acknowledgement|]. split; [reflexivity|].
    unfold handler_calls. destruct (is_JSONDecodeError e); eauto.
Qed.

(** *** Rows, columns and cells *)

Lemma records_of_rows (recs : list record) :
  records_of (map JObj recs) = Some recs.
Proof.
  induction recs as [|r recs IH]; simpl; [reflexivity|]. now rewrite IH.
Qed.

Lemma DataFrame_rows (recs : list record) :
  DataFrame DataFrame_of_other (rows_of recs) = inr recs.
Proof. unfold DataFrame, rows_of. now rewrite records_of_rows. Qed.

Lemma no_key_no_label (label : string) (r : record) :
  lookup label r = None -> existsb (String.eqb label) (map fst r) = false.
Proof.
  induction r as [|[k v] r IH]; simpl; [reflexivity|].
  rewrite (String.eqb_sym label k).
  destruct (String.eqb k label); [discriminate|]. exact IH.
Qed.

Lemma no_key_no_column (label : string) (df : frame) :
  (forall r, In r df -> lookup label r = None) -> has_column label df = false.
Proof.
  unfold has_column, columns. induction df as [|r df IH]; intros H; simpl.
  - reflexivity.
  - rewrite existsb_app, no_key_no_label by (apply H; now left).
    apply IH. intros r' Hr'. apply H. now right.
Qed.

Lemma traverse_fails {A B} (f : A -> exn + B) (l : list A) (a : A) (e : exn) :
  In a l -> f a = inl e -> exists e', traverse f l = inl e'.
Proof.
  induction l as [|a' l IH]; simpl; [tauto|].
  intros [->|Hin] Hf.
  - rewrite Hf. eauto.
  - destruct (f a'); [eauto|].
    destruct (IH Hin Hf) as (e' & ->). eauto.
Qed.

Lemma missing_data_rejected (price_data : json) :
  truthy price_data = false ->
  closes price_data = inl (Exn ValueError "Missing 'data' field.").
Proof. intros H. unfold close_prices_of. now rewrite H. Qed.

Lemma rows_without_close_rejected (recs : list record) :
  (forall r, In r recs -> lookup "close" r = None) ->
  exists e, closes (rows_of recs) = inl e.
Proof.
  intros H. unfold close_prices_of.
  destruct (truthy (rows_of recs)) eqn:T; cbn [negb]; [|eauto].
  rewrite DataFrame_rows.
  rewrite (no_key_no_column "close" recs H), orb_true_r. eauto.
Qed.

Lemma rows_with_bad_close_rejected (recs : list record) (r : record) (v : json) (e : exn) :
  In r recs -> lookup "close" r = Some v -> cell_float (Some v) = inl e ->
  exists e', closes (rows_of recs) = inl e'.
Proof.
  intros Hin Hv He. unfold close_prices_of.
  destruct (truthy (rows_of recs)) eqn:T; cbn [negb]; [|eauto].
  rewrite DataFrame_rows.
  destruct (empty recs || negb (has_column "close" recs)); [eauto|].
  unfold astype_float. apply (@traverse_fails _ _ cell_float _ (Some v) e).
  - unfold column. rewrite <- Hv. now apply in_map.
  - exact He.
Qed.

(** *** The claims on the analysis, the sink and the callback *)

(** C1 (amended). For every RabbitMQ message whose body decodes to a JSON
    object whose 'data' field is empty or absent, analyze_patterns returns
    the failure result with 'error' set to "Missing 'data' field." and
    logs the failure, and the callback, when no KeyboardInterrupt cuts it
    short, answers the message with basic_ack. It issues no nack, unless basic_ack itself raises: then the exception
    reaches the except clauses and one basic_nack follows, with requeue=True
    unless what basic_ack raised is a JSONDecodeError. *)
Theorem missing_data_is_acked (members : list (string * json)) :
  truthy (field "data" members JNull) = false ->
  analyze (JObj members)
  = ([Log ERROR "Pattern analysis failed for symbol %s"],
     Returns (failure_result (field "symbol" members (JStr "UNKNOWN"))
                (Exn ValueError "Missing 'data' field.")))
  /\ acknowledgements (trace (deliver (Returns (JObj members))))
     = BasicAck :: match ack_raises with
                   | Some e => [BasicNack (negb (is_JSONDecodeError e))]
                   | None => []
                   end
  /\ (ack_raises = None -> result (deliver (Returns (JObj members))) = Returns tt).
Proof.
  intros H. split; [|split].
  - rewrite analyze_patterns_dict. now rewrite (missing_data_rejected _ H).
  - exact (proj2 (callback_on_dict members)).
  - intros A. rewrite (proj1 (callback_on_dict members)), A. reflexivity.
Qed.

(** C5 (amended). For every request whose series is empty or absent, or is a
    list of records none of which has a 'close' key, or is a list of records
    one of which has a 'close' value that float coercion rejects, the request
    is rejected before pattern analysis: analyze_patterns logs the failure
    and returns a failure result, and neither the peak search is logged nor
    the result sink called. *)
Theorem unusable_series_rejected (members : list (string * json)) (recs : list record) :
  truthy (field "data" members JNull) = false
  \/ (field "data" members JNull = rows_of recs
      /\ forall r, In r recs -> lookup "close" r = None)
  \/ (field "data" members JNull = rows_of recs
      /\ exists r v e, In r recs /\ lookup "close" r = Some v
                       /\ cell_float (Some v) = inl e) ->
  exists e,
    analyze (JObj members)
    = ([Log ERROR "Pattern analysis failed for symbol %s"],
       Returns (failure_result (field "symbol" members (JStr "UNKNOWN")) e)).
Proof.
  intros H. rewrite analyze_patterns_dict.
  assert (R : exists e, closes (field "data" members JNull) = inl e).
  { destruct H as [H|[(-> & H)|(-> & r & v & e & Hin & Hv & He)]].
    - rewrite (missing_data_rejected _ H). eauto.
    - now apply rows_without_close_rejected.
    - now apply (rows_with_bad_close_rejected recs r Hin Hv He). }
  destruct R as (e & ->). eauto.
Qed.

(** C6 (amended). Every result analyze_patterns returns has exactly one of
    two histories. A success result was handed to the result sink, after the
    peak search was logged: it was logged and printed there (and published as
    a one-element batch when print did not raise, see C9). A failure result
    was not handed to the result sink: the only call made is the
    logger.exception of the except block. *)
Theorem only_success_reaches_sink (data r : json) :
  result (analyze data) = Returns r ->
  (has_key "analysis_data" r = true /\ has_key "error" r = false
   /\ trace (analyze data)
      = Log INFO "Found %d peaks and %d valleys for %s" :: trace (send r)
   /\ In (Print r) (trace (analyze data)))
  \/ (has_key "error" r = true /\ has_key "analysis_data" r = false
      /\ trace (analyze data) = [Log ERROR "Pattern analysis failed for symbol %s"]).
Proof.
  destruct data as [| | | | | |members]; try discriminate.
  rewrite analyze_patterns_dict.
  destruct (closes (field "data" members JNull)) as [e|close_prices];
    cbn [result trace fst snd]; intros H; injection H as <-.
  - right. repeat split; reflexivity.
  - left. rewrite send_to_output_run. cbn [trace fst].
    repeat split; try reflexivity.
    right. unfold sink_calls. right. left. reflexivity.
Qed.

(** C8 (amended). For every input that is a dict, analyze_patterns returns
    normally: any error raised inside is converted into the failure result,
    and the returned dictionary carries 'symbol', analysis_type
    "chart_patterns", and exactly one of 'analysis_data' and 'error'. *)
Theorem dict_analysis_returns_one_shape (members : list (string * json)) :
  exists fields,
    result (analyze (JObj members)) = Returns (JObj fields)
    /\ lookup "symbol" fields = Some (field "symbol" members (JStr "UNKNOWN"))
    /\ lookup "analysis_type" fields = Some (JStr "chart_patterns")
    /\ ((lookup "analysis_data" fields <> None /\ lookup "error" fields = None)
        \/ (lookup "analysis_data" fields = None /\ lookup "error" fields <> None)).
Proof.
  rewrite analyze_patterns_dict.
  destruct (closes (field "data" members JNull)) as [e|close_prices];
    eexists; (split; [reflexivity|]); cbn; repeat split.
  - right. split; [reflexivity|discriminate].
  - left. split; [discriminate|reflexivity].
Qed.

(** C9 (amended). The result sink makes its calls in order inside one try
    block and never raises to its caller. The logger call and print are
    always attempted; the one-element batch is submitted iff print did not
    raise; a failure of print or of the submission is logged as an error. *)
Theorem send_to_output_one_try (data : json) :
  result (send data) = Returns tt
  /\ In (Log INFO "Sending data to output:\n%s") (trace (send data))
  /\ In (Print data) (trace (send data))
  /\ (In (PublishToQueue [data]) (trace (send data)) <-> print_raises = None)
  /\ (In (Log ERROR "Failed to send output: %s") (trace (send data))
      <-> print_raises <> None \/ publish_raises <> None).
Proof.
  rewrite send_to_output_run. unfold sink_calls. cbn [result trace fst snd].
  destruct print_raises, publish_raises; simpl;
    repeat split; try tauto; try discriminate; intuition (try discriminate; try congruence).
Qed.

(** C10 (amended). For every RabbitMQ delivery the callback, when no
    KeyboardInterrupt cuts it short, first makes one acknowledgement call: nack(requeue=false) iff json.loads raises
    JSONDecodeError, ack iff the body decodes to a dict, and
    nack(requeue=true) otherwise, that is when the body decodes to a value
    that is not a dict (analyze_patterns then raises AttributeError from its
    except block) or json.loads raises another exception. It makes no other,
    unless that call was a basic_ack that raised: then one basic_nack
    follows, with requeue=True unless what basic_ack raised is a
    JSONDecodeError. The callback returns, unless it called basic_nack and
    that call raised: this exception leaves the callback. *)
Theorem callback_acknowledges_once (loaded : outcome json) :
  acknowledgements (trace (deliver loaded))
  = match loaded with
    | Raises e => [BasicNack (negb (is_JSONDecodeError e))]
    | Returns (JObj _) =>
        BasicAck :: match ack_raises with
                    | Some e => [BasicNack (negb (is_JSONDecodeError e))]
                    | None => []
                    end
    | Returns _ => [BasicNack true]
    end
  /\ result (deliver loaded)
     = match loaded, ack_raises, nack_raises with
       | Returns (JObj _), None, _ => Returns tt
       | _, _, None => Returns tt
       | _, _, Some e => Raises e
       end
  /\ (ack_raises = None -> length (acknowledgements (trace (deliver loaded))) = 1).
Proof.
  destruct (callback_run loaded) as (A & R & _).
  split; [exact A|]. split.
  - rewrite R. unfold nacked, outcome_of.
    destruct loaded as [[| | | | | |members]|e], ack_raises, nack_raises; reflexivity.
  - intros N. rewrite A, N.
    destruct loaded as [[| | | | | |members]|e]; reflexivity.
Qed.

End AnalysisFacts.

(** ** Concrete runs: the claims as stated, and the hypotheses of the
    theorems above at inputs that satisfy them *)

(** C1 (claim as stated, refuted). The body [{"symbol": "AAPL"}] is valid JSON
    without a 'data' field. analyze_patterns returns a failure result, the
    callback then calls basic_ack, and no nack(requeue=false) is issued. *)
Lemma missing_data_not_nacked :
  result (quiet_analysis (JObj [("symbol", JStr "AAPL")]))
  = Returns (JObj [("symbol", JStr "AAPL");
                   ("analysis_type", JStr "chart_patterns");
                   ("error", JStr "Missing 'data' field.")])
  /\ acknowledgements (trace (quiet_callback (Returns (JObj [("symbol", JStr "AAPL")]))))
     = [BasicAck]
  /\ ~ In (BasicNack false)
          (trace (quiet_callback (Returns (JObj [("symbol", JStr "AAPL")])))).
Proof. repeat split; try reflexivity. not_among. Qed.

Lemma missing_data_is_acked_witness :
  truthy (field "data" [("symbol", JStr "AAPL"); ("data", JArr [])] JNull) = false
  /\ acknowledgements
       (trace (callback str_rejected other_rejected None None
                 (Some channel_closed) None
                 (Returns (JObj [("symbol", JStr "AAPL"); ("data", JArr [])]))))
     = [BasicAck; BasicNack true].
Proof.
  split; [reflexivity|].
  exact (proj1 (proj2 (@missing_data_is_acked str_rejected other_rejected None None
                         (Some channel_closed) None
                         [("symbol", JStr "AAPL"); ("data", JArr [])] eq_refl))).
Defined.

(** C5 (claim as stated, refuted). In the series
    [{"close": 1.0}, {"open": 2.0}] the second element has no 'close' value.
    The request is not rejected: the frame holds NaN there, the analysis runs
    and a success payload is returned (and sent to the sink). *)
Lemma row_without_close_not_rejected :
  lookup "close" [("open", JFloat 2)] = None
  /\ quiet_analysis
       (JObj [("symbol", JStr "AAPL");
              ("data", JArr [close_row 1; JObj [("open", JFloat 2)]])])
     = ([Log INFO "Found %d peaks and %d valleys for %s";
         Log INFO "Sending data to output:\n%s";
         Print (success_result (JStr "AAPL") [1%float; nan]);
         PublishToQueue [success_result (JStr "AAPL") [1%float; nan]]],
        Returns (JObj [("symbol", JStr "AAPL");
                       ("analysis_type", JStr "chart_patterns");
                       ("analysis_data",
                         JObj [("patterns", JArr [JStr "No recognizable patterns"]);
                               ("peaks", JArr []);
                               ("valleys", JArr [])])])).
Proof. split; reflexivity. Qed.

Lemma unusable_series_rejected_witness :
  (field "data" [("data", rows_of [[("close", JArr [])]])] JNull
   = rows_of [[("close", JArr [])]]
   /\ exists r v e,
        In r [[("close", JArr [])]] /\ lookup "close" r = Some v
        /\ to_float str_rejected (Some v) = inl e)
  /\ exists e,
       quiet_analysis (JObj [("data", rows_of [[("close", JArr [])]])])
       = ([Log ERROR "Pattern analysis failed for symbol %s"],
          Returns (failure_result (JStr "UNKNOWN") e)).
Proof.
  assert (H : field "data" [("data", rows_of [[("close", JArr [])]])] JNull
              = rows_of [[("close", JArr [])]]
              /\ exists r v e,
                   In r [[("close", JArr [])]] /\ lookup "close" r = Some v
                   /\ to_float str_rejected (Some v) = inl e).
  { split; [reflexivity|].
    exists [("close", JArr [])], (JArr []),
      (Exn ValueError "setting an array element with a sequence.").
    repeat split. now left. }
  split; [exact H|].
  exact (@unusable_series_rejected str_rejected other_rejected None None
           [("data", rows_of [[("close", JArr [])]])] [[("close", JArr [])]]
           (or_intror (or_intror H))).
Defined.

(** C6 (claim as stated, refuted). For the message [{"symbol": "AAPL"}]
    analyze_patterns returns a failure result and the only call it makes is
    the logger.exception: the result is neither printed nor published. *)
Lemma failure_result_not_sent :
  quiet_analysis (JObj [("symbol", JStr "AAPL")])
  = ([Log ERROR "Pattern analysis failed for symbol %s"],
     Returns (failure_result (JStr "AAPL") (Exn ValueError "Missing 'data' field.")))
  /\ ~ In (Print (failure_result (JStr "AAPL") (Exn ValueError "Missing 'data' field.")))
          (trace (quiet_analysis (JObj [("symbol", JStr "AAPL")])))
  /\ ~ In (PublishToQueue
             [failure_result (JStr "AAPL") (Exn ValueError "Missing 'data' field.")])
          (trace (quiet_analysis (JObj [("symbol", JStr "AAPL")]))).
Proof. repeat split; try reflexivity; not_among. Qed.

Lemma only_success_reaches_sink_witness :
  result (quiet_analysis
            (JObj [("symbol", JStr "AAPL");
                   ("data", JArr (map close_row [1; 3; 1; 3; 1]%float))]))
  = Returns (success_result (JStr "AAPL") [1; 3; 1; 3; 1]%float)
  /\ ((has_key "analysis_data" (success_result (JStr "AAPL") [1; 3; 1; 3; 1]%float) = true
       /\ has_key "error" (success_result (JStr "AAPL") [1; 3; 1; 3; 1]%float) = false
       /\ trace (quiet_analysis
                   (JObj [("symbol", JStr "AAPL");
                          ("data", JArr (map close_row [1; 3; 1; 3; 1]%float))]))
          = Log INFO "Found %d peaks and %d valleys for %s"
              :: trace (send_to_output None None
                          (success_result (JStr "AAPL") [1; 3; 1; 3; 1]%float))
       /\ In (Print (success_result (JStr "AAPL") [1; 3; 1; 3; 1]%float))
             (trace (quiet_analysis
                       (JObj [("symbol", JStr "AAPL");
                              ("data", JArr (map close_row [1; 3; 1; 3; 1]%float))]))))
      \/ (has_key "error" (success_result (JStr "AAPL") [1; 3; 1; 3; 1]%float) = true
          /\ has_key "analysis_data" (success_result (JStr "AAPL") [1; 3; 1; 3; 1]%float)
             = false
          /\ trace (quiet_analysis
                      (JObj [("symbol", JStr "AAPL");
                             ("data", JArr (map close_row [1; 3; 1; 3; 1]%float))]))
             = [Log ERROR "Pattern analysis failed for symbol %s"])).
Proof.
  split; [reflexivity|].
  exact (@only_success_reaches_sink str_rejected other_rejected None None
           (JObj [("symbol", JStr "AAPL");
                  ("data", JArr (map close_row [1; 3; 1; 3; 1]%float))])
           (success_result (JStr "AAPL") [1; 3; 1; 3; 1]%float) eq_refl).
Defined.

(** C8 (claim as stated, refuted). [json.loads] of the body [[]] is a list.
    Line 40 raises AttributeError (a list has no [get]); the except block
    evaluates [data.get] again, and that AttributeError leaves
    analyze_patterns: no result is returned. *)
Lemma list_input_raises :
  quiet_analysis (JArr [])
  = ([], Raises (Exn AttributeError "'list' object has no attribute 'get'")).
Proof. reflexivity. Qed.

(** C9 (claim as stated, refuted). When [print] raises (a closed pipe), the
    except block logs the error and [publish_to_queue] is never attempted:
    the failure of one side effect prevents another. *)
Lemma print_failure_skips_publish :
  trace (send_to_output (Some (Exn OSError "Broken pipe")) None
           (success_result (JStr "AAPL") [1; 3; 1; 3; 1]%float))
  = [Log INFO "Sending data to output:\n%s";
     Print (success_result (JStr "AAPL") [1; 3; 1; 3; 1]%float);
     Log ERROR "Failed to send output: %s"]
  /\ ~ In (PublishToQueue [success_result (JStr "AAPL") [1; 3; 1; 3; 1]%float])
          (trace (send_to_output (Some (Exn OSError "Broken pipe")) None
                    (success_result (JStr "AAPL") [1; 3; 1; 3; 1]%float))).
Proof. split; [reflexivity|]. not_among. Qed.

(** C10 (claim as stated, refuted). The body [[]] decodes without error, yet
    analyze_patterns raises on it (a list has no [get]) and the callback
    issues nack(requeue=true): that branch is reachable. It is taken as well
    when decoding fails with an exception that is not a JSONDecodeError. *)
Lemma requeue_branch_reached :
  acknowledgements (trace (quiet_callback (Returns (JArr [])))) = [BasicNack true]
  /\ acknowledgements
       (trace (quiet_callback
                 (Raises (Exn UnicodeDecodeError
                            "'utf-8' codec can't decode byte 0xff in position 0: invalid start byte"))))
     = [BasicNack true].
Proof. split; reflexivity. Qed.

(** * Further properties of the code *)

(** ** processor.py: the checks and the result *)

Lemma nth_take_last_n (x : list float) (idx : list nat) (k j : nat) :
  j < k -> k <= length idx ->
  nth j (take x (last_n k idx)) nan = at_ x (from_end idx (k - j) 0).
Proof.
  intros Hj Hk. unfold take, last_n, from_end.
  rewrite (nth_indep _ nan (at_ x 0)) by (rewrite length_map, length_skipn; lia).
  rewrite map_nth, nth_skipn. f_equal. f_equal. lia.
Qed.

Lemma double_top_cases (x : list float) :
  double_top x = [] \/ double_top x = ["Double Top"].
Proof.
  unfold double_top. destruct (2 <=? _); auto. destruct (close_pair _); auto.
Qed.

Lemma double_bottom_cases (x : list float) :
  double_bottom x = [] \/ double_bottom x = ["Double Bottom"].
Proof.
  unfold double_bottom. destruct (2 <=? _); auto. destruct (close_pair _); auto.
Qed.

Lemma head_and_shoulders_cases (x : list float) :
  head_and_shoulders x = [] \/ head_and_shoulders x = ["Head and Shoulders"].
Proof.
  unfold head_and_shoulders. destruct (_ && _); auto. destruct (_ && _); auto.
Qed.

(** X2. Head and Shoulders fires iff there are at least three peaks and two
    valleys, the close at the second-most-recent peak is strictly above the
    closes at the peaks before and after it, and the closes at the two most
    recent valleys are strictly below it. Where the valleys lie relative to
    the peaks plays no part. *)
Theorem head_and_shoulders_fires (x : list float) :
  In "Head and Shoulders" (patterns_of x)
  <-> 3 <= length (peaks_of x) /\ 2 <= length (valleys_of x)
      /\ PrimFloat.ltb (peak_value x 3) (peak_value x 2) = true
      /\ PrimFloat.ltb (peak_value x 1) (peak_value x 2) = true
      /\ PrimFloat.ltb (valley_value x 2) (peak_value x 2) = true
      /\ PrimFloat.ltb (valley_value x 1) (peak_value x 2) = true.
Proof.
  unfold patterns_of. rewrite !in_app_iff.
  assert (E : In "Head and Shoulders" (head_and_shoulders x)
              <-> 3 <= length (peaks_of x) /\ 2 <= length (valleys_of x)
                  /\ PrimFloat.ltb (peak_value x 3) (peak_value x 2) = true
                  /\ PrimFloat.ltb (peak_value x 1) (peak_value x 2) = true
                  /\ PrimFloat.ltb (valley_value x 2) (peak_value x 2) = true
                  /\ PrimFloat.ltb (valley_value x 1) (peak_value x 2) = true).
  { unfold head_and_shoulders, gt, peak_value, valley_value.
    destruct (3 <=? length (peaks_of x)) eqn:P; cbn [andb].
    2:{ apply Nat.leb_gt in P. split; [intros []|lia]. }
    destruct (2 <=? length (valleys_of x)) eqn:V; cbn [andb].
    2:{ apply Nat.leb_gt in V. split; [intros []|lia]. }
    apply Nat.leb_le in P, V.
    rewrite !nth_take_last_n by lia. cbn [Nat.sub].
    destruct (PrimFloat.ltb _ _ && _ && _ && _) eqn:C.
    - rewrite !andb_true_iff in C. simpl. intuition.
    - split; [intros []|]. intros (_ & _ & H1 & H2 & H3 & H4).
      rewrite H1, H2, H3, H4 in C. discriminate. }
  rewrite <- E.
  destruct (double_top_cases x) as [-> | ->], (double_bottom_cases x) as [-> | ->];
    simpl; intuition discriminate.
Qed.

(** X3. The patterns list of a success result is never empty and holds the
    labels in the order Double Top, Double Bottom, Head and Shoulders, each at
    most once; it holds "No recognizable patterns" exactly when no check
    fired, and then nothing else. *)
Theorem reported_patterns_shape (symbol : json) (x : list float) :
  exists labels,
    reported_patterns (success_result symbol x) = Some (json_strs labels)
    /\ labels <> []
    /\ labels = filter (fun l => existsb (String.eqb l) labels) label_order
    /\ (In "No recognizable patterns" labels
        <-> labels = ["No recognizable patterns"])
    /\ (labels = ["No recognizable patterns"] <-> patterns_of x = [])
    /\ (patterns_of x <> [] -> labels = patterns_of x).
Proof.
  unfold success_result, reported_patterns, patterns_of. cbn [lookup String.eqb Ascii.eqb Bool.eqb].
  destruct (double_top_cases x) as [-> | ->], (double_bottom_cases x) as [-> | ->],
    (head_and_shoulders_cases x) as [-> | ->];
    eexists; (split; [reflexivity|]); cbn;
    repeat split; try discriminate; try reflexivity; try congruence;
    intuition (try discriminate; try congruence).
Qed.

Lemma local_maxima_sorted (x : list float) (i_max : nat) :
  i_max <= length x ->
  forall fuel i,
    Forall (le i) (local_maxima fuel x i i_max)
    /\ StronglySorted lt (local_maxima fuel x i i_max).
Proof.
  intros Hmax. induction fuel as [|fuel IH]; intros i; simpl.
  - split; constructor.
  - destruct (i <? i_max) eqn:Hlt; [|split; constructor].
    apply Nat.ltb_lt in Hlt.
    assert (Hnext : Forall (le i) (local_maxima fuel x (i + 1) i_max)
                    /\ StronglySorted lt (local_maxima fuel x (i + 1) i_max)).
    { destruct (IH (i + 1)) as (F & S). split; [|exact S].
      eapply Forall_impl; [|exact F]. simpl. intros. lia. }
    destruct (PrimFloat.ltb (at_ x (i - 1)) (at_ x i)); [|exact Hnext].
    destruct (@look_ahead_spec x i i_max (length x) (i + 1)) as (Hs & _); try lia.
    set (s := look_ahead (length x) x i (i + 1) i_max) in *.
    destruct (PrimFloat.ltb (at_ x s) (at_ x i)); [|exact Hnext].
    destruct (IH (s + 1)) as (F & S).
    assert (M : i <= (i + (s - 1)) / 2 <= s - 1) by (apply midpoint_in_run; lia).
    split.
    + constructor; [exact (proj1 M)|].
      eapply Forall_impl; [|exact F]. simpl. intros. lia.
    + constructor; [exact S|]. eapply Forall_impl; [|exact F].
      intros a Ha. apply Nat.le_lt_trans with (s - 1); [exact (proj2 M)|].
      simpl in Ha. lia.
Qed.

(** X4. The peak indices of every series are strictly increasing, and so are
    the valley indices: the last entry is the most recent extremum and no
    index is reported twice. *)
Theorem extrema_strictly_increasing (x : list float) :
  StronglySorted lt (peaks_of x) /\ StronglySorted lt (valleys_of x).
Proof.
  unfold peaks_of, valleys_of, find_peaks. split.
  - apply local_maxima_sorted. lia.
  - apply local_maxima_sorted. lia.
Qed.

Lemma SFcompare_Eq_right (a c y : spec_float) :
  SFcompare a c = Some Eq -> SFcompare y a = SFcompare y c.
Proof.
  intros H. destruct (SFcompare_Eq_inv a c H) as [->|(s & s' & -> & ->)].
  - reflexivity.
  - destruct y; reflexivity.
Qed.

Lemma eqb_ltb_right (a b c : float) :
  PrimFloat.eqb b c = true -> PrimFloat.ltb a b = PrimFloat.ltb a c.
Proof.
  rewrite eqb_spec, !ltb_spec. unfold SFeqb, SFltb. intros H.
  rewrite (@SFcompare_Eq_right (Prim2SF b) (Prim2SF c) (Prim2SF a)); [reflexivity|].
  destruct (SFcompare (Prim2SF b) (Prim2SF c)) as [[| |]|]; congruence.
Qed.

Lemma ltb_irrefl (a : float) : PrimFloat.ltb a a = false.
Proof.
  destruct (PrimFloat.ltb a a) eqn:E; [|reflexivity].
  pose proof (ltb_asym E). congruence.
Qed.

(** A run above its neighbours and a run below its neighbours cannot share
    an index. *)
Lemma runs_apart (x : list float) (l r l' r' m : nat) :
  peak_run x l r -> valley_run x l' r' ->
  l <= m <= r -> l' <= m <= r' -> False.
Proof.
  intros (P1 & P2 & P3 & P4 & P5 & P6) (V1 & V2 & V3 & V4 & V5 & V6) Hm Hm'.
  destruct (Nat.lt_trichotomy l l') as [Hlt|[<-|Hgt]].
  - (* the valley run starts inside the peak run *)
    assert (E : PrimFloat.eqb (at_ x l') (at_ x l) = true) by (apply P5; lia).
    rewrite (eqb_ltb_left _ E) in V4.
    destruct (Nat.eq_dec (l' - 1) l) as [E'|E'].
    + rewrite E', ltb_irrefl in V4. discriminate.
    + apply ltb_not_eqb in V4. rewrite eqb_sym, P5 in V4 by lia. discriminate.
  - apply ltb_asym in P4. congruence.
  - (* the peak run starts inside the valley run *)
    assert (E : PrimFloat.eqb (at_ x l) (at_ x l') = true) by (apply V5; lia).
    rewrite (eqb_ltb_right _ E) in P4.
    destruct (Nat.eq_dec (l - 1) l') as [E'|E'].
    + rewrite E', ltb_irrefl in P4. discriminate.
    + apply ltb_not_eqb in P4. rewrite V5 in P4 by lia. discriminate.
Qed.

(** X5. No index of a series is reported both as a peak and as a valley. *)
Theorem peak_is_no_valley (x : list float) (m : nat) :
  In m (peaks_of x) -> ~ In m (valleys_of x).
Proof.
  intros Hp Hv.
  apply peaks_of_spec in Hp. destruct Hp as (l & r & Hrun & ->).
  apply valleys_of_spec in Hv. destruct Hv as (l' & r' & Hrun' & Hm).
  assert (l <= r) by (destruct Hrun; tauto).
  assert (l' <= r') by (destruct Hrun'; tauto).
  apply (runs_apart Hrun Hrun' (m := (l + r) / 2)).
  - now apply midpoint_in_run.
  - rewrite Hm. now apply midpoint_in_run.
Qed.

Lemma peak_is_no_valley_witness :
  In 3 (peaks_of [1; 3; 1; 3; 1]%float) /\ ~ In 3 (valleys_of [1; 3; 1; 3; 1]%float).
Proof.
  assert (H : In 3 (peaks_of [1; 3; 1; 3; 1]%float)) by (right; left; reflexivity).
  split; [exact H|].
  exact (peak_is_no_valley [1; 3; 1; 3; 1]%float 3 H).
Defined.

Lemma finite_nonzero_spec (a : float) :
  is_finite a = true -> is_zero a = false ->
  exists s m e, Prim2SF a = S754_finite s m e.
Proof.
  unfold is_finite, is_nan, is_infinity, is_zero.
  rewrite !eqb_spec, abs_spec.
  change (Prim2SF infinity) with (S754_infinity false).
  change (Prim2SF zero) with (S754_zero false).
  destruct (Prim2SF a) as [s|s| |s m e]; simpl; try discriminate; eauto.
  rewrite orb_true_r. discriminate.
Qed.

Lemma sub_self_finite (a : float) (s : bool) (m : positive) (e : Z) :
  Prim2SF a = S754_finite s m e -> Prim2SF (PrimFloat.sub a a) = S754_zero false.
Proof.
  intros H. rewrite sub_spec, H. unfold SF64sub, SFsub, shl_align.
  change IntDef.Z.sub with Z.sub. change IntDef.Z.min with Z.min.
  rewrite Z.min_id, Z.sub_diag. reflexivity.
Qed.

Lemma eqb_zero (a b : float) (s : bool) :
  PrimFloat.eqb a b = true -> Prim2SF b = S754_zero s ->
  exists s', Prim2SF a = S754_zero s'.
Proof.
  rewrite eqb_spec. unfold SFeqb. intros H Hb. rewrite Hb in H.
  destruct (Prim2SF a) as [sa|sa| |sa ma ea]; simpl in H; try discriminate; eauto;
    destruct sa; discriminate.
Qed.

Lemma eqb_finite (a b : float) (s : bool) (m : positive) (e : Z) :
  PrimFloat.eqb a b = true -> Prim2SF b = S754_finite s m e -> a = b.
Proof.
  rewrite eqb_spec. unfold SFeqb. intros H Hb. apply Prim2SF_inj.
  destruct (SFcompare (Prim2SF a) (Prim2SF b)) as [[| |]|] eqn:C; try discriminate.
  destruct (SFcompare_Eq_inv _ _ C) as [E|(s1 & s2 & _ & E)]; [exact E|].
  congruence.
Qed.

Lemma SFcompare_refl_finite (s : bool) (m : positive) (e : Z) :
  SFcompare (S754_finite s m e) (S754_finite s m e) = Some Eq.
Proof.
  simpl. rewrite Z.compare_refl.
  change (PosDef.Pos.compare_cont Eq) with Pos.compare.
  rewrite Pos.compare_refl. destruct s; reflexivity.
Qed.

Lemma finite_is_finite (a : float) (s : bool) (m : positive) (e : Z) :
  Prim2SF a = S754_finite s m e -> is_finite a && negb (is_zero a) = true.
Proof.
  intros H. unfold is_finite, is_nan, is_infinity, is_zero.
  rewrite !eqb_spec, abs_spec, H. unfold SFeqb.
  rewrite SFcompare_refl_finite.
  change (Prim2SF infinity) with (S754_infinity false).
  change (Prim2SF zero) with (S754_zero false).
  destruct s; reflexivity.
Qed.

(** The quotient of the check when the two values are equal. *)
Lemma equal_pair_quotient (last ref : float) :
  PrimFloat.eqb last ref = true ->
  PrimFloat.ltb (PrimFloat.div (PrimFloat.abs (PrimFloat.sub last ref)) ref) threshold
  = is_finite ref && negb (is_zero ref).
Proof.
  intros H.
  destruct (Prim2SF ref) as [s|s| |s m e] eqn:R.
  4:{ rewrite (@finite_is_finite ref s m e R).
      rewrite (@eqb_finite last ref s m e H R).
      rewrite ltb_spec, div_spec, abs_spec, (@sub_self_finite ref s m e R), R.
      change (Prim2SF threshold) with (S754_finite false 5764607523034235 (-58)).
      destruct s; reflexivity. }
  all: revert H; unfold is_finite, is_nan, is_infinity, is_zero;
    rewrite ltb_spec, div_spec, abs_spec, sub_spec, !eqb_spec, abs_spec, R;
    change (Prim2SF infinity) with (S754_infinity false);
    change (Prim2SF zero) with (S754_zero false);
    change (Prim2SF threshold) with (S754_finite false 5764607523034235 (-58));
    unfold SFeqb;
    destruct (Prim2SF last) as [s'|s'| |s' m' e']; simpl;
    try discriminate; intros H;
    try (destruct s, s'; simpl in *; try discriminate; reflexivity);
    try (destruct s; discriminate); try (destruct s'; discriminate).
Qed.

(** X6. When the two most recent peaks (resp. valleys) have equal closes,
    Double Top (resp. Double Bottom) fires iff that close is finite and not
    zero: for two equal zeros the quotient is 0/0 and for two equal
    infinities the difference is undefined, and neither matches. *)
Theorem equal_extrema_fire (k : kind) (x : list float) :
  2 <= length (extrema k x) ->
  PrimFloat.eqb (last_value k x) (reference k x) = true ->
  (In (double_label k) (patterns_of x)
   <-> is_finite (reference k x) && negb (is_zero (reference k x)) = true).
Proof.
  intros H E. rewrite (double_label_quotient k x H). unfold quotient.
  now rewrite (@equal_pair_quotient _ _ E).
Qed.

Lemma equal_extrema_fire_witness :
  2 <= length (extrema Peak [1; 3; 1; 3; 1]%float)
  /\ PrimFloat.eqb (last_value Peak [1; 3; 1; 3; 1]%float)
                   (reference Peak [1; 3; 1; 3; 1]%float) = true
  /\ (In "Double Top" (patterns_of [1; 3; 1; 3; 1]%float)
      <-> is_finite (reference Peak [1; 3; 1; 3; 1]%float)
          && negb (is_zero (reference Peak [1; 3; 1; 3; 1]%float)) = true).
Proof.
  assert (H : 2 <= length (extrema Peak [1; 3; 1; 3; 1]%float)) by (vm_compute; lia).
  assert (E : PrimFloat.eqb (last_value Peak [1; 3; 1; 3; 1]%float)
                            (reference Peak [1; 3; 1; 3; 1]%float) = true)
    by reflexivity.
  split; [exact H|]. split; [exact E|].
  exact (equal_extrema_fire Peak [1; 3; 1; 3; 1]%float H E).
Defined.

(** ** processor.py: a series that is analysed *)

Lemma key_has_label (label : string) (r : record) :
  lookup label r <> None -> existsb (String.eqb label) (map fst r) = true.
Proof.
  induction r as [|[k v] r IH]; simpl; [congruence|].
  rewrite (String.eqb_sym label k).
  destruct (String.eqb k label); [reflexivity|]. exact IH.
Qed.

Lemma key_is_column (label : string) (df : frame) (r : record) :
  In r df -> lookup label r <> None -> has_column label df = true.
Proof.
  unfold has_column, columns. induction df as [|r' df IH]; simpl; [tauto|].
  intros [->|Hin] H; rewrite existsb_app.
  - now rewrite key_has_label.
  - rewrite IH by assumption. apply orb_true_r.
Qed.

Lemma column_not_empty (label : string) (df : frame) :
  has_column label df = true -> empty df = false.
Proof.
  unfold has_column, empty. destruct df as [|r df]; [discriminate|].
  destruct (columns (r :: df)); [discriminate|reflexivity].
Qed.

Lemma traverse_Forall2 {A B} (f : A -> exn + B) (l : list A) (bs : list B) :
  Forall2 (fun a b => f a = inr b) l bs -> traverse f l = inr bs.
Proof.
  induction 1 as [|a b l bs Hab _ IH]; simpl; [reflexivity|].
  now rewrite Hab, IH.
Qed.

Section SeriesFacts.

Variable float_of_str : string -> option float.
Variable DataFrame_of_other : json -> exn + frame.
Variable print_raises : option exn.
Variable publish_raises : option exn.

Lemma coercible_closes (recs : list record) (closes : list float) :
  (exists r, In r recs /\ lookup "close" r <> None) ->
  Forall2 (fun r c => to_float float_of_str (lookup "close" r) = inr c) recs closes ->
  close_prices_of float_of_str DataFrame_of_other (rows_of recs) = inr closes.
Proof.
  intros (r & Hin & Hclose) Hcells. unfold close_prices_of.
  assert (T : truthy (rows_of recs) = true)
    by (destruct recs; [destruct Hin|reflexivity]).
  rewrite T. cbn [negb]. rewrite DataFrame_rows.
  rewrite (key_is_column "close" recs r Hin Hclose).
  rewrite (column_not_empty "close" recs (key_is_column "close" recs r Hin Hclose)).
  cbn [negb orb]. unfold astype_float, column.
  apply traverse_Forall2.
  clear -Hcells. induction Hcells; simpl; constructor; auto.
Qed.

(** X7. For every request whose data is a list of records of which at least
    one has a 'close' key and in which every 'close' cell coerces to a float
    (a record without the key counting as NaN), whatever other keys the
    records carry, analyze_patterns returns the success result computed from
    these floats in the order of the records, after logging the peak search
    and handing the result to the sink. *)
Theorem coercible_series_analysed
  (members : list (string * json)) (recs : list record) (closes : list float) :
  field "data" members JNull = rows_of recs ->
  (exists r, In r recs /\ lookup "close" r <> None) ->
  Forall2 (fun r c => to_float float_of_str (lookup "close" r) = inr c) recs closes ->
  analyze_patterns float_of_str DataFrame_of_other print_raises publish_raises
    (JObj members)
  = (Log INFO "Found %d peaks and %d valleys for %s"
       :: sink_calls print_raises publish_raises
            (success_result (field "symbol" members (JStr "UNKNOWN")) closes),
     Returns (success_result (field "symbol" members (JStr "UNKNOWN")) closes)).
Proof.
  intros Hdata Hkey Hcells.
  rewrite analyze_patterns_dict, Hdata.
  rewrite (coercible_closes Hkey Hcells).
  reflexivity.
Qed.

(** C4 (amended). The relative-difference check has no guard: it divides by
    the reference in float64 arithmetic. For every series in which the
    reference of the Double Top or Double Bottom check is +0.0, the quotient
    is +inf or NaN and the label does not fire; and the analysis of a request
    that carries this series does not raise: it returns the success result,
    whose patterns do not hold the label. *)
Theorem zero_reference_does_not_match (k : kind) (x : list float) :
  2 <= length (extrema k x) ->
  reference k x = 0%float ->
  (quotient k x = infinity \/ PrimFloat.is_nan (quotient k x) = true)
  /\ ~ In (double_label k) (patterns_of x)
  /\ forall (members : list (string * json)) (recs : list record),
       field "data" members JNull = rows_of recs ->
       (exists r, In r recs /\ lookup "close" r <> None) ->
       Forall2 (fun r c => to_float float_of_str (lookup "close" r) = inr c) recs x ->
       exists labels,
         result (analyze_patterns float_of_str DataFrame_of_other print_raises
                   publish_raises (JObj members))
         = Returns (success_result (field "symbol" members (JStr "UNKNOWN")) x)
         /\ reported_patterns (success_result (field "symbol" members (JStr "UNKNOWN")) x)
            = Some (json_strs labels)
         /\ ~ In (double_label k) labels.
Proof.
  intros H Hzero.
  assert (N : ~ In (double_label k) (patterns_of x)).
  { intros Hin. apply (double_label_quotient k x H) in Hin. unfold quotient in Hin.
    rewrite Hzero, quotient_by_zero_not_below in Hin. discriminate. }
  split; [|split; [exact N|]].
  - unfold quotient. rewrite Hzero. apply quotient_by_zero.
  - intros members recs Hdata Hkey Hcells.
    exists (match patterns_of x with
            | [] => ["No recognizable patterns"]
            | _ :: _ => patterns_of x
            end).
    split; [|split].
    + rewrite analyze_patterns_dict, Hdata, (coercible_closes Hkey Hcells).
      reflexivity.
    + unfold success_result, reported_patterns. cbn [lookup String.eqb Ascii.eqb Bool.eqb].
      destruct (patterns_of x); reflexivity.
    + destruct (patterns_of x) as [|p ps] eqn:P; [|exact N].
      destruct k; simpl; intuition discriminate.
Qed.

End SeriesFacts.

Lemma coercible_series_analysed_witness :
  field "data" [("data", rows_of [[("close", JFloat 1); ("volume", JInt 7)]; []])] JNull
  = rows_of [[("close", JFloat 1); ("volume", JInt 7)]; []]
  /\ result (quiet_analysis
               (JObj [("data", rows_of [[("close", JFloat 1); ("volume", JInt 7)]; []])]))
     = Returns (success_result (JStr "UNKNOWN") [1%float; nan]).
Proof.
  split; [reflexivity|].
  refine (f_equal snd
            (@coercible_series_analysed str_rejected other_rejected None None
               [("data", rows_of [[("close", JFloat 1); ("volume", JInt 7)]; []])]
               [[("close", JFloat 1); ("volume", JInt 7)]; []]
               [1%float; nan] eq_refl _ _)).
  - exists [("close", JFloat 1); ("volume", JInt 7)]. split; [now left|discriminate].
  - repeat constructor.
Defined.

Lemma zero_reference_does_not_match_witness :
  2 <= length (extrema Valley [5; 0; 5; 2; 5]%float)
  /\ reference Valley [5; 0; 5; 2; 5]%float = 0%float
  /\ (quotient Valley [5; 0; 5; 2; 5]%float = infinity
      \/ PrimFloat.is_nan (quotient Valley [5; 0; 5; 2; 5]%float) = true)
  /\ ~ In "Double Bottom" (patterns_of [5; 0; 5; 2; 5]%float)
  /\ result (quiet_analysis
               (JObj [("data", JArr (map close_row [5; 0; 5; 2; 5]%float))]))
     = Returns (success_result (JStr "UNKNOWN") [5; 0; 5; 2; 5]%float).
Proof.
  assert (H : 2 <= length (extrema Valley [5; 0; 5; 2; 5]%float))
    by (vm_compute; lia).
  assert (Z : reference Valley [5; 0; 5; 2; 5]%float = 0%float) by reflexivity.
  split; [exact H|]. split; [exact Z|].
  pose proof (@zero_reference_does_not_match str_rejected other_rejected None None
                Valley [5; 0; 5; 2; 5]%float H Z) as (Q & N & A).
  split; [exact Q|]. split; [exact N|].
  destruct (A [("data", JArr (map close_row [5; 0; 5; 2; 5]%float))]
              (map (fun c => [("close", JFloat c)]) [5; 0; 5; 2; 5]%float)
              eq_refl) as (labels & R & _).
  - exists [("close", JFloat 5)]. split; [now left|discriminate].
  - repeat constructor.
  - exact R.
Defined.

(** ** queue_handler.py: connections that come back closed *)

Lemma connect_loop_prefix (pre : list attempt) :
  forall retries done rest,
    none_open pre = true ->
    length (raising pre) < retries ->
    exists tr,
      connect_loop (pre ++ rest) retries done
      = connect_loop rest (retries - length (raising pre)) (done ++ tr)
      /\ attempts tr = length pre
      /\ sleeps tr = repeat 5%Z (length (raising pre)).
Proof.
  induction pre as [|a pre IH]; intros retries done rest Hopen Hlen.
  - exists []. simpl. now rewrite Nat.sub_0_r, app_nil_r.
  - destruct retries as [|retries]; [lia|].
    destruct a as [e|conn]; simpl in Hopen, Hlen |- *.
    + destruct (IH retries (done ++ failed_attempt) rest Hopen ltac:(lia))
        as (tr & E & A & S).
      exists (failed_attempt ++ tr). split; [|split].
      * unfold failed_attempt in *. rewrite E. now rewrite <- app_assoc.
      * rewrite attempts_app, A. reflexivity.
      * rewrite sleeps_app, S. reflexivity.
    + apply andb_true_iff in Hopen. destruct Hopen as (Hc & Hopen).
      apply negb_true_iff in Hc. rewrite Hc.
      destruct (IH (S retries) (done ++ [BlockingConnection]) rest Hopen Hlen)
        as (tr & E & A & S).
      exists (BlockingConnection :: tr). split; [|split].
      * rewrite E. now rewrite <- app_assoc.
      * change (BlockingConnection :: tr) with ([BlockingConnection] ++ tr).
        rewrite attempts_app, A. reflexivity.
      * exact S.
Qed.

Lemma connect_loop_gives_up (pre : list attempt) :
  forall retries done rest,
    none_open pre = true ->
    retries <= length (raising pre) ->
    exists tr,
      connect_loop (pre ++ rest) retries done = Some (done ++ tr, Raises gave_up)
      /\ attempts tr <= length pre
      /\ sleeps tr = repeat 5%Z retries.
Proof.
  induction pre as [|a pre IH]; intros retries done rest Hopen Hlen.
  - simpl in Hlen. assert (retries = 0) as -> by lia.
    exists []. rewrite connect_loop_exhausted, app_nil_r.
    split; [reflexivity|]. split; [unfold attempts; simpl; lia|reflexivity].
  - destruct retries as [|retries].
    { exists []. rewrite connect_loop_exhausted, app_nil_r.
      split; [reflexivity|]. split; [unfold attempts; simpl; lia|reflexivity]. }
    destruct a as [e|conn]; simpl in Hopen, Hlen |- *.
    + destruct (IH retries (done ++ failed_attempt) rest Hopen ltac:(lia))
        as (tr & E & A & S).
      exists (failed_attempt ++ tr). split; [|split].
      * unfold failed_attempt in *. rewrite E. now rewrite <- app_assoc.
      * rewrite attempts_app. change (attempts failed_attempt) with 1. lia.
      * rewrite sleeps_app, S. reflexivity.
    + apply andb_true_iff in Hopen. destruct Hopen as (Hc & Hopen).
      apply negb_true_iff in Hc. rewrite Hc.
      destruct (IH (S retries) (done ++ [BlockingConnection]) rest Hopen Hlen)
        as (tr & E & A & S).
      exists (BlockingConnection :: tr). split; [|split].
      * rewrite E. now rewrite <- app_assoc.
      * change (BlockingConnection :: tr) with ([BlockingConnection] ++ tr).
        rewrite attempts_app. change (attempts [BlockingConnection]) with 1. lia.
      * exact S.
Qed.

(** X8. An attempt that yields a connection that is not open is repeated at
    once: it costs no retry and no sleep. Over any run of attempts none of
    which yields an open connection: while fewer than 5 of them raised, the
    function is still trying at its end, and it returns the first open
    connection that follows, having slept 5 seconds once per raised attempt;
    once 5 of them raised it has raised ConnectionError, whatever follows. *)
Theorem connect_outcome (pre rest : list attempt) :
  none_open pre = true ->
  (length (raising pre) < 5 ->
   _connect_to_rabbitmq pre = None
   /\ forall conn, is_open conn = true ->
        exists tr,
          _connect_to_rabbitmq (pre ++ Connects conn :: rest) = Some (tr, Returns conn)
          /\ attempts tr = length pre + 1
          /\ sleeps tr = repeat 5%Z (length (raising pre)))
  /\ (5 <= length (raising pre) ->
      exists tr,
        _connect_to_rabbitmq (pre ++ rest) = Some (tr, Raises gave_up)
        /\ attempts tr <= length pre
        /\ sleeps tr = repeat 5%Z 5).
Proof.
  intros Hopen. unfold _connect_to_rabbitmq. split.
  - intros Hlen. split.
    + destruct (connect_loop_prefix pre [] [] Hopen Hlen) as (tr & E & _).
      rewrite app_nil_r in E. rewrite E.
      destruct (5 - length (raising pre)) eqn:D; [lia|reflexivity].
    + intros conn Hconn.
      destruct (connect_loop_prefix pre [] (Connects conn :: rest) Hopen Hlen)
        as (tr & E & A & S).
      rewrite E. destruct (5 - length (raising pre)) eqn:D; [lia|].
      simpl. rewrite Hconn. eexists. split; [reflexivity|]. split.
      * rewrite attempts_app, A. reflexivity.
      * rewrite sleeps_app, S. simpl. now rewrite app_nil_r.
  - intros Hlen.
    destruct (connect_loop_gives_up pre [] rest Hopen Hlen) as (tr & E & A & S).
    exists tr. auto.
Qed.

Lemma connect_outcome_witness :
  none_open [Connects (Connection 1 false); refused; Connects (Connection 2 false)] = true
  /\ _connect_to_rabbitmq
       [Connects (Connection 1 false); refused; Connects (Connection 2 false)] = None.
Proof.
  split; [reflexivity|].
  apply (proj1 (@connect_outcome
                  [Connects (Connection 1 false); refused; Connects (Connection 2 false)]
                  [] eq_refl)).
  simpl. lia.
Defined.

(** ** queue_handler.py and main.py: the consumers *)

Lemma calls_app (tr tr' : list step) : calls (tr ++ tr') = calls tr ++ calls tr'.
Proof. apply flat_map_app. Qed.

Lemma broker_calls_app (tr tr' : list step) :
  broker_calls (tr ++ tr') = broker_calls tr ++ broker_calls tr'.
Proof. apply flat_map_app. Qed.

Lemma deleted_app (tr tr' : list step) : deleted (tr ++ tr') = deleted tr ++ deleted tr'.
Proof. apply flat_map_app. Qed.

Lemma calls_Did (l : list event) : calls (map Did l) = l.
Proof. induction l; simpl; congruence. Qed.

Lemma broker_calls_Did (l : list event) : broker_calls (map Did l) = [].
Proof. induction l; simpl; congruence. Qed.

Lemma deleted_Did (l : list event) : deleted (map Did l) = [].
Proof. induction l; simpl; congruence. Qed.

Lemma receives_app (tr tr' : list step) : receives (tr ++ tr') = receives tr + receives tr'.
Proof. unfold receives. now rewrite broker_calls_app, filter_app, length_app. Qed.

Lemma connect_loop_no_acknowledgement (script : list attempt) :
  forall retries done c,
    connect_loop script retries done = Some c ->
    acknowledgements (fst c) = acknowledgements done.
Proof.
  induction script as [|a script IH]; intros retries done c H.
  - destruct retries; simpl in H; [|discriminate]. now injection H as <-.
  - destruct retries as [|retries]; simpl in H.
    + now injection H as <-.
    + destruct a as [e|conn].
      * rewrite (IH _ _ _ H), acknowledgements_app, app_nil_r. reflexivity.
      * destruct (is_open conn).
        -- injection H as <-. simpl. rewrite acknowledgements_app. apply app_nil_r.
        -- rewrite (IH _ _ _ H), acknowledgements_app. apply app_nil_r.
Qed.

Lemma acknowledgements_firstn (tr : list event) :
  forall n, exists k, acknowledgements (firstn n tr) = firstn k (acknowledgements tr).
Proof.
  induction tr as [|ev tr IH]; intros n.
  - exists 0. now rewrite firstn_nil.
  - destruct n as [|n]; [exists 0; reflexivity|].
    destruct (IH n) as (k & E). cbn [firstn acknowledgements filter].
    fold (acknowledgements (firstn n tr)). fold (acknowledgements tr).
    destruct (is_acknowledgement ev).
    + exists (S k). cbn [firstn]. now rewrite E.
    + exists k. exact E.
Qed.


Lemma and_then_Done {A B} (tr : list step) (a : A) (k : A -> run B) :
  and_then (tr, Done a) k = (tr ++ fst (k a), snd (k a)).
Proof. cbn [and_then]. destruct (k a); reflexivity. Qed.

Section ConsumerFacts.

Variable float_of_str : string -> option float.
Variable DataFrame_of_other : json -> exn + frame.
Variable print_raises : option exn.
Variable publish_raises : option exn.
Variable setup_raises : broker_call -> option exn.

Local Abbreviation analyze :=
  (analyze_patterns float_of_str DataFrame_of_other print_raises publish_raises).
Local Abbreviation on_message :=
  (callback float_of_str DataFrame_of_other print_raises publish_raises).
Local Abbreviation one_delivery :=
  (on_delivery float_of_str DataFrame_of_other print_raises publish_raises).
Local Abbreviation deliveries_run :=
  (deliver float_of_str DataFrame_of_other print_raises publish_raises).
Local Abbreviation rabbitmq :=
  (_consume_rabbitmq float_of_str DataFrame_of_other print_raises publish_raises
     setup_raises).
Local Abbreviation one_message :=
  (process_message float_of_str DataFrame_of_other print_raises publish_raises).
Local Abbreviation batch :=
  (process_messages float_of_str DataFrame_of_other print_raises publish_raises).
Local Abbreviation one_poll :=
  (poll_once float_of_str DataFrame_of_other print_raises publish_raises).
Local Abbreviation sqs_loop :=
  (polling float_of_str DataFrame_of_other print_raises publish_raises).
Local Abbreviation sqs :=
  (_consume_sqs float_of_str DataFrame_of_other print_raises publish_raises).
Local Abbreviation consumer :=
  (consume_messages float_of_str DataFrame_of_other print_raises publish_raises
     setup_raises).
Local Abbreviation process :=
  (main float_of_str DataFrame_of_other print_raises publish_raises setup_raises).

(** One delivery: the calls of its callback, how it ends, and what it was
    answered with. *)
Lemma on_delivery_run (d : delivery) :
  exists tr,
    one_delivery d = (map Did tr, ending_of (callback_end d))
    /\ (exists k, acknowledgements tr = firstn k (answered d))
    /\ (interrupted_after d = None -> acknowledgements tr = answered d)
    /\ (forall n, interrupted_after d = Some n -> n <= 1 -> acknowledgements tr = []).
Proof.
  destruct (callback_run float_of_str DataFrame_of_other print_raises publish_raises
              (ack_fails d) (nack_fails d) (loads d)) as (A & R & lvl & fmt & rest & F).
  unfold on_delivery, callback_end, answered.
  destruct (on_message (ack_fails d) (nack_fails d) (loads d)) as [tr r].
  cbn [trace result fst snd] in A, R, F.
  destruct (interrupted_after d) as [n|].
  - exists (firstn n tr). split; [reflexivity|]. split; [|split].
    + rewrite <- A. apply acknowledgements_firstn.
    + discriminate.
    + intros n' E Hn. injection E as <-. rewrite F.
      destruct n as [|[|n]]; [reflexivity|reflexivity|lia].
  - exists tr. split; [|split; [|split]].
    + unfold of_py. cbn [fst snd]. rewrite R.
      destruct (nacked (ack_fails d) (loads d)); [|reflexivity].
      destruct (nack_fails d); reflexivity.
    + exists (length (answers (ack_fails d) (loads d))). now rewrite firstn_all.
    + intros _. exact A.
    + discriminate.
Qed.


Lemma deliver_all_return (deliveries : list delivery) :
  forallb returns deliveries = true ->
  exists tr,
    deliveries_run deliveries = (map Did tr, Done tt)
    /\ acknowledgements tr = flat_map answered deliveries.
Proof.
  induction deliveries as [|d rest IH]; cbn [deliver forallb flat_map]; intros H.
  - exists []. split; reflexivity.
  - apply andb_true_iff in H. destruct H as (Hd & H).
    destruct (IH H) as (tr' & E' & A').
    destruct (on_delivery_run d) as (tr & E & _ & A & _).
    unfold returns in Hd.
    destruct (callback_end d) eqn:C; try discriminate.
    assert (I : interrupted_after d = None).
    { unfold callback_end in C. destruct (interrupted_after d); [discriminate|reflexivity]. }
    exists (tr ++ tr'). rewrite E, E'. cbn [ending_of and_then].
    rewrite map_app, acknowledgements_app, (A I), A'. split; reflexivity.
Qed.

Lemma returns_not_interrupted (d : delivery) :
  returns d = true -> callback_end d = ConsumingReturns /\ interrupted_after d = None.
Proof.
  unfold returns. destruct (callback_end d) eqn:C; try discriminate. intros _.
  split; [reflexivity|].
  unfold callback_end in C. destruct (interrupted_after d); [discriminate|reflexivity].
Qed.

Lemma deliver_left (before : list delivery) (d : delivery) (after : list delivery) :
  forallb returns before = true ->
  returns d = false ->
  exists tr,
    deliveries_run (before ++ d :: after) = (map Did tr, ending_of (callback_end d))
    /\ (exists k, acknowledgements tr = flat_map answered before ++ firstn k (answered d))
    /\ (interrupted_after d = None ->
        acknowledgements tr = flat_map answered before ++ answered d)
    /\ (forall n, interrupted_after d = Some n -> n <= 1 ->
        acknowledgements tr = flat_map answered before).
Proof.
  intros Hb Hd. induction before as [|b bs IH]; cbn [app deliver forallb flat_map] in *.
  - destruct (on_delivery_run d) as (tr & E & K & A & N).
    exists tr. rewrite E. split; [|split; [exact K|split; [exact A|]]].
    + unfold returns in Hd. destruct (callback_end d); [discriminate| |]; reflexivity.
    + intros n I Hn. now rewrite (N n I Hn).
  - apply andb_true_iff in Hb. destruct Hb as (Hb1 & Hb).
    destruct (IH Hb) as (tr' & E' & (k & K') & A' & N').
    destruct (returns_not_interrupted b Hb1) as (C & I).
    destruct (on_delivery_run b) as (tr & E & _ & A & _).
    exists (tr ++ tr'). rewrite E, E', C. cbn [ending_of and_then].
    rewrite map_app, acknowledgements_app, (A I).
    split; [reflexivity|]. split; [|split].
    + exists k. now rewrite K', app_assoc.
    + intros Id. now rewrite (A' Id), app_assoc.
    + intros n Id Hn. now rewrite (N' n Id Hn).
Qed.

Lemma consume_rabbitmq_run (script : list attempt) (deliveries : list delivery)
  (stop : consuming_end) (connecting : list event) (conn : connection)
  (delivered : list event) (r : ending unit) :
  _connect_to_rabbitmq script = Some (connecting, Returns conn) ->
  (forall c, setup_raises c = None) ->
  and_then (deliveries_run deliveries)
           (fun _ => match stop with
                     | ConsumingReturns => done tt
                     | ConsumingInterrupted => ([], Interrupted)
                     | ConsumingFails e => fail e
                     end)
  = (map Did delivered, r) ->
  rabbitmq script deliveries stop
  = (map Did connecting
       ++ map Broker topology
       ++ [Did (Log INFO "Waiting for messages from RabbitMQ..."); Broker StartConsuming]
       ++ map Did delivered
       ++ match r with
          | Interrupted =>
              [Did (Log INFO "Stopping RabbitMQ consumer..."); Broker StopConsuming]
          | _ => []
          end
       ++ [Broker CloseConnection; Did (Log INFO "RabbitMQ connection closed.")],
     Some (match r with
           | Failed e => Failed e
           | _ => Done tt
           end)).
Proof.
  intros Hc Hs Hd. unfold _consume_rabbitmq, setup, broker, start_consuming.
  rewrite Hc, !Hs, Hd.
  destruct r as [[]|e|]; cbn; rewrite ?app_nil_r, <- ?app_assoc; reflexivity.
Qed.

(** X9. Once connected and set up, the RabbitMQ consumer answers the
    deliveries in the order of delivery. While every callback returns, each
    delivery is answered by the calls of its callback: nack(requeue=false)
    for a body that is not JSON, ack for a body that decodes to a dict,
    nack(requeue=true) otherwise, and ack followed by a nack when basic_ack
    raised. The first delivery whose callback does not return ends the
    consuming and no later delivery is answered: when the exception of its
    basic_nack left it, it has had its answer; when a KeyboardInterrupt left
    it, it has its answer only as far as the callback got, and none when the
    interrupt arrived before the callback's second call. *)
Theorem deliveries_answered_in_order (script : list attempt)
  (deliveries : list delivery) (stop : consuming_end)
  (connecting : list event) (conn : connection) :
  _connect_to_rabbitmq script = Some (connecting, Returns conn) ->
  (forall c, setup_raises c = None) ->
  (forallb returns deliveries = true ->
   acknowledgements (calls (fst (rabbitmq script deliveries stop)))
   = flat_map answered deliveries)
  /\ (forall before d after,
        deliveries = before ++ d :: after ->
        forallb returns before = true ->
        returns d = false ->
        (exists k,
           acknowledgements (calls (fst (rabbitmq script deliveries stop)))
           = flat_map answered before ++ firstn k (answered d))
        /\ (interrupted_after d = None ->
            acknowledgements (calls (fst (rabbitmq script deliveries stop)))
            = flat_map answered before ++ answered d)
        /\ (forall n, interrupted_after d = Some n -> n <= 1 ->
            acknowledgements (calls (fst (rabbitmq script deliveries stop)))
            = flat_map answered before)).
Proof.
  intros Hc Hs.
  pose proof (@connect_loop_no_acknowledgement script 5 [] _ Hc) as Hn. simpl in Hn.
  assert (T : forall delivered r,
            and_then (deliveries_run deliveries)
                     (fun _ => match stop with
                               | ConsumingReturns => done tt
                               | ConsumingInterrupted => ([], Interrupted)
                               | ConsumingFails e => fail e
                               end)
            = (map Did delivered, r) ->
            acknowledgements (calls (fst (rabbitmq script deliveries stop)))
            = acknowledgements delivered).
  { intros delivered r Hd.
    rewrite (@consume_rabbitmq_run script deliveries stop connecting conn delivered r
               Hc Hs Hd).
    cbn [fst]. rewrite !calls_app, !calls_Did, !acknowledgements_app, Hn.
    destruct r; simpl; now rewrite app_nil_r. }
  split.
  - intros Hall. destruct (deliver_all_return deliveries Hall) as (tr & E & A).
    rewrite <- A. apply (T tr (ending_of stop)). rewrite E, and_then_Done.
    destruct stop; cbn; now rewrite app_nil_r.
  - intros before d after -> Hb Hd.
    destruct (deliver_left before d after Hb Hd) as (tr & E & K & A & N).
    assert (R : acknowledgements (calls (fst (rabbitmq script (before ++ d :: after) stop)))
                = acknowledgements tr).
    { apply (T tr (ending_of (callback_end d))). rewrite E.
      unfold returns in Hd. destruct (callback_end d); [discriminate| |]; reflexivity. }
    rewrite R. auto.
Qed.


(** X11. When connecting raises, or when a call that sets the topology up
    raises, the RabbitMQ consumer lets the exception out without consuming:
    start_consuming is not called and nothing is acknowledged. The connection
    opened before a failed setup call is not closed, the setup being outside
    the try block. *)
Theorem failure_before_consuming (script : list attempt)
  (deliveries : list delivery) (stop : consuming_end) (connecting : list event) :
  (exists e, _connect_to_rabbitmq script = Some (connecting, Raises e))
  \/ ((exists conn, _connect_to_rabbitmq script = Some (connecting, Returns conn))
      /\ exists c, In c topology /\ setup_raises c <> None) ->
  (exists e, snd (rabbitmq script deliveries stop) = Some (Failed e))
  /\ ~ In StartConsuming (broker_calls (fst (rabbitmq script deliveries stop)))
  /\ ~ In CloseConnection (broker_calls (fst (rabbitmq script deliveries stop)))
  /\ acknowledgements (calls (fst (rabbitmq script deliveries stop))) = [].
Proof.
  intros [(e & Hc)|((conn & Hc) & c & Hin & Hraise)];
    pose proof (@connect_loop_no_acknowledgement script 5 [] _ Hc) as Hn; simpl in Hn;
    unfold _consume_rabbitmq, setup, broker; rewrite Hc.
  - cbn [fst snd and_then of_py finished].
    rewrite broker_calls_Did, calls_Did, Hn. split; [eauto|]. not_among.
  - assert (Hsome : exists c e, In c topology /\ setup_raises c = Some e).
    { destruct (setup_raises c) eqn:E; [eauto|congruence]. }
    clear c Hin Hraise.
    destruct (setup_raises OpenChannel) eqn:E1;
      [|destruct (setup_raises ExchangeDeclare) eqn:E2;
        [|destruct (setup_raises QueueDeclare) eqn:E3;
          [|destruct (setup_raises QueueBind) eqn:E4;
            [|destruct (setup_raises BasicConsume) eqn:E5]]]].
    6:{ exfalso. destruct Hsome as (c & e & Hin & Hc').
        simpl in Hin. intuition (subst; congruence). }
    all: cbn; rewrite ?app_nil_r, ?broker_calls_app, ?calls_app,
           ?broker_calls_Did, ?calls_Did, ?acknowledgements_app, ?Hn; cbn;
      (split; [eauto|]); not_among.
Qed.

Lemma analysis_never_sleeps (members : list (string * json)) :
  sleeps (fst (analyze (JObj members))) = [].
Proof.
  rewrite analyze_patterns_dict.
  destruct (close_prices_of float_of_str DataFrame_of_other (field "data" members JNull));
    [reflexivity|].
  unfold sink_calls. destruct print_raises, publish_raises; reflexivity.
Qed.

Lemma own_steps_app (tr tr' : list step) :
  own_steps (tr ++ tr') = own_steps tr ++ own_steps tr'.
Proof. apply filter_app. Qed.

Lemma analysis_own_steps (members : list (string * json)) :
  own_steps (map Did (fst (analyze (JObj members)))) = [].
Proof.
  rewrite analyze_patterns_dict.
  destruct (close_prices_of float_of_str DataFrame_of_other (field "data" members JNull));
    [reflexivity|].
  unfold sink_calls. destruct print_raises, publish_raises; reflexivity.
Qed.

Lemma process_message_run (msg : sqs_message) :
  exists tr,
    one_message msg = (tr, Done tt)
    /\ broker_calls tr
       = (if decodes_to_dict (loaded_body msg)
          then [DeleteMessage (ReceiptHandle msg)] else [])
    /\ sleeps (calls tr) = []
    /\ own_steps tr = handling msg.
Proof.
  unfold process_message, handling. destruct (loaded_body msg) as [body|e].
  2:{ eexists. split; [reflexivity|]. repeat split. }
  destruct body as [| | | | | |members];
    try (eexists; split; [reflexivity|]; repeat split).
  destruct (analysis_of_dict_returns float_of_str DataFrame_of_other print_raises
              publish_raises members) as (r & Hr).
  pose proof (analysis_never_sleeps members) as Hs.
  pose proof (analysis_own_steps members) as Ho.
  destruct (analyze (JObj members)) as [tr r'] eqn:E. simpl in Hr, Hs, Ho. subst r'.
  unfold of_py, and_then, except_Exception, broker, log, does, done, fail.
  cbn [fst snd app map decodes_to_dict]. rewrite E. cbn [fst snd app map].
  destruct (delete_raises msg); eexists; (split; [reflexivity|]);
    rewrite ?app_nil_r;
    (split; [|split]).
  all: try (rewrite ?broker_calls_app;
            cbn [broker_calls flat_map app];
            rewrite ?broker_calls_app, ?broker_calls_Did; reflexivity).
  all: try (rewrite ?calls_app; cbn [calls flat_map app];
            rewrite ?calls_app, ?calls_Did;
            unfold sleeps in *; cbn [flat_map app]; rewrite ?flat_map_app, Hs;
            reflexivity).
  all: rewrite ?app_comm_cons, !own_steps_app;
    change (own_steps (Did (Log INFO "Received SQS message: %s") :: map Did tr))
      with (Did (Log INFO "Received SQS message: %s") :: own_steps (map Did tr));
    rewrite Ho; reflexivity.
Qed.

Lemma deleted_of_broker_calls (tr : list step) :
  deleted tr
  = flat_map (fun c => match c with DeleteMessage h => [h] | _ => [] end) (broker_calls tr).
Proof.
  induction tr as [|[ev|c] tr IH]; simpl; [reflexivity|exact IH|].
  rewrite IH. destruct c; reflexivity.
Qed.

Lemma deleted_handles (handles : list string) :
  flat_map (fun c => match c with DeleteMessage h => [h] | _ => [] end)
           (map DeleteMessage handles)
  = handles.
Proof. induction handles as [|h handles IH]; simpl; [reflexivity|now rewrite IH]. Qed.

Lemma no_receive_among_deletes (handles : list string) :
  filter (fun c => match c with ReceiveMessage => true | _ => false end)
         (map DeleteMessage handles)
  = [].
Proof. induction handles as [|h handles IH]; simpl; [reflexivity|exact IH]. Qed.

Lemma process_messages_run (messages : list sqs_message) :
  exists tr,
    batch messages = (tr, Done tt)
    /\ broker_calls tr = map DeleteMessage (handles_of_dicts messages)
    /\ sleeps (calls tr) = []
    /\ own_steps tr = flat_map handling messages.
Proof.
  induction messages as [|msg rest (tr' & E & B & S & O)]; simpl.
  - exists []. repeat split.
  - destruct (process_message_run msg) as (tr & Em & Bm & Sm & Om).
    exists (tr ++ tr'). rewrite Em, E. unfold and_then.
    rewrite broker_calls_app, calls_app, sleeps_app, own_steps_app, Bm, B, Sm, S, Om, O.
    repeat split. unfold handles_of_dicts. simpl.
    destruct (decodes_to_dict (loaded_body msg)); reflexivity.
Qed.

(** X12. The SQS consumer handles every message of a batch, whatever happens
    to the ones before it, and no exception leaves the batch. It calls
    delete_message exactly for the messages whose body decodes to a dict, in
    the order received, and logs each as deleted unless delete_message
    raised. A message whose body is not JSON or decodes to something else is
    not deleted, and it is logged as an error, as is a message whose
    delete_message raised: apart from the calls of the analysis, the batch
    makes exactly these calls, message by message. *)
Theorem batch_deletes_analysed_messages (messages : list sqs_message) :
  snd (batch messages) = Done tt
  /\ deleted (fst (batch messages)) = handles_of_dicts messages
  /\ own_steps (fst (batch messages)) = flat_map handling messages.
Proof.
  destruct (process_messages_run messages) as (tr & E & B & _ & O). rewrite E.
  split; [reflexivity|]. cbn [fst]. split; [|exact O].
  rewrite deleted_of_broker_calls, B. apply deleted_handles.
Qed.

Lemma poll_once_run (p : poll) :
  exists tr,
    one_poll p = (Broker ReceiveMessage :: tr,
                  if poll_interrupted p then Interrupted else Done tt)
    /\ receives tr = 0
    /\ sleeps (calls tr) = if poll_failed p then [5%Z] else [].
Proof.
  unfold poll_once. destruct p as [messages|e|].
  - destruct (process_messages_run messages) as (tr & E & B & S & _).
    exists tr. unfold and_then, does, done, except_Exception. simpl. rewrite E.
    split; [reflexivity|]. split; [|exact S].
    unfold receives. now rewrite B, no_receive_among_deletes.
  - eexists. split; [reflexivity|]. split; reflexivity.
  - exists []. split; [reflexivity|]. split; reflexivity.
Qed.

Lemma polling_run (polls : list poll) :
  forallb (fun p => negb (poll_interrupted p)) polls = true ->
  forall rest,
  exists tr,
    sqs_loop (polls ++ rest) = (tr ++ fst (sqs_loop rest), snd (sqs_loop rest))
    /\ receives tr = length polls
    /\ sleeps (calls tr) = repeat 5%Z (length (filter poll_failed polls)).
Proof.
  induction polls as [|p polls IH]; intros H rest.
  - exists []. simpl. destruct (sqs_loop rest). repeat split.
  - simpl in H. apply andb_true_iff in H. destruct H as (Hp & H).
    apply negb_true_iff in Hp.
    destruct (IH H rest) as (tr' & E & R & S).
    destruct (poll_once_run p) as (tr & Ep & Rp & Sp). rewrite Hp in Ep.
    exists (Broker ReceiveMessage :: tr ++ tr').
    cbn [app polling]. rewrite Ep, E. split; [|split].
    + now rewrite <- app_assoc.
    + change (Broker ReceiveMessage :: tr ++ tr')
        with ([Broker ReceiveMessage] ++ tr ++ tr').
      rewrite !receives_app, Rp, R. reflexivity.
    + change (Broker ReceiveMessage :: tr ++ tr')
        with ([Broker ReceiveMessage] ++ tr ++ tr').
      rewrite !calls_app, !sleeps_app, Sp, S. cbn [filter].
      destruct (poll_failed p); reflexivity.
Qed.

Lemma polling_interrupted (rest : list poll) :
  sqs_loop (PollInterrupted :: rest) = ([Broker ReceiveMessage], Some Interrupted).
Proof. reflexivity. Qed.

(** X13. With a client and a queue URL the SQS consumer polls without end:
    over any polls none of which is interrupted it is still polling, having
    called receive_message once per poll and slept 5 seconds once per poll
    that raised, and at no other time. An interrupt during a poll ends it
    with the interrupt in flight, later polls not being made. *)
Theorem sqs_consumer_keeps_polling (url : string) (polls rest : list poll) :
  url <> "" ->
  forallb (fun p => negb (poll_interrupted p)) polls = true ->
  (snd (sqs true url polls) = None
   /\ receives (fst (sqs true url polls)) = length polls
   /\ sleeps (calls (fst (sqs true url polls)))
      = repeat 5%Z (length (filter poll_failed polls)))
  /\ (snd (sqs true url (polls ++ PollInterrupted :: rest)) = Some Interrupted
      /\ receives (fst (sqs true url (polls ++ PollInterrupted :: rest)))
         = length polls + 1).
Proof.
  intros Hurl Hpolls. unfold _consume_sqs.
  assert (T : truthy (JStr url) = true).
  { simpl. destruct (String.eqb_spec url ""); [congruence|reflexivity]. }
  rewrite T. cbn [negb orb]. split.
  - destruct (polling_run polls Hpolls []) as (tr & E & R & S).
    rewrite app_nil_r in E. rewrite E. cbn [polling fst snd].
    rewrite app_nil_r. repeat split.
    + change (Did (Log INFO "Polling for SQS messages...") :: tr)
        with ([Did (Log INFO "Polling for SQS messages...")] ++ tr).
      rewrite receives_app, R. reflexivity.
    + exact S.
  - destruct (polling_run polls Hpolls (PollInterrupted :: rest)) as (tr & E & R & S).
    rewrite E, polling_interrupted. cbn [fst snd]. split; [reflexivity|].
    change (Did (Log INFO "Polling for SQS messages...") :: tr ++ [Broker ReceiveMessage])
      with ([Did (Log INFO "Polling for SQS messages...")] ++ tr ++ [Broker ReceiveMessage]).
    rewrite !receives_app, R. reflexivity.
Qed.

(** X14. Whatever the consumer does, main lets neither an exception nor an
    interrupt out: when the consumer ends, however it ends, main returns
    normally, and it ends exactly when the consumer does. Its first call is
    the start-up log line. *)
Theorem main_returns_normally (w : world) :
  (snd (process w) = None \/ snd (process w) = Some (Done tt))
  /\ (snd (process w) = None <-> snd (consumer w) = None)
  /\ hd_error (fst (process w))
     = Some (Did (Log INFO "Starting stock-tech-patterns processor...")).
Proof.
  unfold main. destruct (consumer w) as [tr [[[]|e|]|]]; cbn;
    repeat split; auto; discriminate.
Qed.

(** X15. When RabbitMQ is the queue and the first five connection attempts
    raise, main logs the start, makes these five attempts with a 5-second
    sleep after each, logs the fatal error and returns normally: no channel
    is opened and nothing is consumed. *)
Theorem main_gives_up_on_unreachable_broker (w : world) (failures : list exn)
  (rest : list attempt) :
  QUEUE_TYPE w = "rabbitmq" ->
  rabbitmq_attempts w = map Fails failures ++ rest ->
  length failures = 5 ->
  process w
  = (Did (Log INFO "Starting stock-tech-patterns processor...")
       :: map Did (flat_map (fun _ => failed_attempt) failures)
       ++ [Did (Log ERROR "Fatal error occurred: %s")],
     Some (Done tt)).
Proof.
  intros Hq Ha Hl. unfold main, consume_messages, _consume_rabbitmq, _connect_to_rabbitmq.
  rewrite Hq, Ha. cbn [String.eqb Ascii.eqb Bool.eqb].
  rewrite connect_loop_failures by lia. rewrite Hl, connect_loop_exhausted.
  cbn. reflexivity.
Qed.

(** X16. With a QUEUE_TYPE other than "rabbitmq" and "sqs", or with "sqs" and
    no client or an empty queue URL, main makes exactly two calls, the
    start-up log line and one error log line that names the
    misconfiguration, and returns normally: no connection is attempted and
    no broker call made. *)
Theorem misconfigured_process_idles (w : world) :
  (QUEUE_TYPE w <> "rabbitmq" /\ QUEUE_TYPE w <> "sqs")
  \/ (QUEUE_TYPE w = "sqs" /\ (sqs_client w = false \/ SQS_QUEUE_URL w = "")) ->
  process w
  = ([Did (Log INFO "Starting stock-tech-patterns processor...");
      Did (Log ERROR (if String.eqb (QUEUE_TYPE w) "sqs"
                      then "SQS not initialized or missing queue URL."
                      else "Invalid QUEUE_TYPE specified. Use 'rabbitmq' or 'sqs'."))],
     Some (Done tt))
  /\ broker_calls (fst (process w)) = []
  /\ attempts (calls (fst (process w))) = 0.
Proof.
  unfold main, consume_messages, _consume_sqs.
  intros [(H1 & H2)|(H1 & H2)].
  - destruct (String.eqb_spec (QUEUE_TYPE w) "rabbitmq"); [congruence|].
    destruct (String.eqb_spec (QUEUE_TYPE w) "sqs"); [congruence|].
    repeat split.
  - rewrite H1. cbn [String.eqb Ascii.eqb Bool.eqb].
    assert (G : negb (sqs_client w) || negb (truthy (JStr (SQS_QUEUE_URL w))) = true).
    { destruct H2 as [-> | ->]; [reflexivity|]. apply orb_true_r. }
    rewrite G. repeat split.
Qed.

End ConsumerFacts.

Lemma deliveries_answered_in_order_witness :
  _connect_to_rabbitmq open_at_once = Some (connected, Returns (Connection 1 true))
  /\ (forall c, setup_succeeds c = None)
  /\ acknowledgements
       (calls (fst (_consume_rabbitmq str_rejected other_rejected None None setup_succeeds
                      open_at_once three_deliveries ConsumingInterrupted)))
     = [BasicAck; BasicNack false; BasicAck; BasicNack true]
  /\ acknowledgements
       (calls (fst (_consume_rabbitmq str_rejected other_rejected None None setup_succeeds
                      open_at_once (three_deliveries ++ [interrupted_delivery])
                      ConsumingReturns)))
     = [BasicAck; BasicNack false; BasicAck; BasicNack true].
Proof.
  split; [reflexivity|]. split; [reflexivity|]. split.
  - exact (proj1 (@deliveries_answered_in_order str_rejected other_rejected None None
                    setup_succeeds open_at_once three_deliveries ConsumingInterrupted
                    connected (Connection 1 true) eq_refl (fun _ => eq_refl))
                 eq_refl).
  - exact (proj2 (proj2
             (proj2 (@deliveries_answered_in_order str_rejected other_rejected None None
                       setup_succeeds open_at_once
                       (three_deliveries ++ [interrupted_delivery]) ConsumingReturns
                       connected (Connection 1 true) eq_refl (fun _ => eq_refl))
                    three_deliveries interrupted_delivery [] eq_refl eq_refl eq_refl))
             1 eq_refl (le_n 1)).
Defined.


Lemma failure_before_consuming_witness :
  ((exists conn, _connect_to_rabbitmq open_at_once = Some (connected, Returns conn))
   /\ exists c, In c topology /\ bind_refused c <> None)
  /\ ~ In CloseConnection
          (broker_calls
             (fst (_consume_rabbitmq str_rejected other_rejected None None bind_refused
                     open_at_once three_deliveries ConsumingReturns))).
Proof.
  assert (H : (exists conn, _connect_to_rabbitmq open_at_once
                            = Some (connected, Returns conn))
              /\ exists c, In c topology /\ bind_refused c <> None).
  { split; [exists (Connection 1 true); reflexivity|].
    exists QueueBind. split; [simpl; tauto|discriminate]. }
  split; [exact H|].
  exact (proj1 (proj2 (proj2
           (@failure_before_consuming str_rejected other_rejected None None bind_refused
              open_at_once three_deliveries ConsumingReturns connected
              (or_intror H))))).
Defined.

Lemma sqs_consumer_keeps_polling_witness :
  "queue-url" <> ""
  /\ forallb (fun p => negb (poll_interrupted p))
             [PollFails (Exn OSError "timeout");
              PollReturns [sample_message (Returns (JObj [])) "h1"]] = true
  /\ sleeps (calls (fst (_consume_sqs str_rejected other_rejected None None true
                           "queue-url"
                           [PollFails (Exn OSError "timeout");
                            PollReturns [sample_message (Returns (JObj [])) "h1"]])))
     = [5%Z].
Proof.
  assert (U : "queue-url" <> "") by discriminate.
  split; [exact U|]. split; [reflexivity|].
  exact (proj2 (proj2 (proj1
           (@sqs_consumer_keeps_polling str_rejected other_rejected None None
              "queue-url"
              [PollFails (Exn OSError "timeout");
               PollReturns [sample_message (Returns (JObj [])) "h1"]]
              [] U eq_refl)))).
Defined.

Lemma main_gives_up_on_unreachable_broker_witness :
  QUEUE_TYPE unreachable_rabbitmq = "rabbitmq"
  /\ snd (main str_rejected other_rejected None None setup_succeeds unreachable_rabbitmq)
     = Some (Done tt).
Proof.
  split; [reflexivity|].
  exact (f_equal snd
           (@main_gives_up_on_unreachable_broker str_rejected other_rejected None None
              setup_succeeds unreachable_rabbitmq
              (repeat (Exn AMQPConnectionError "Connection refused") 5) []
              eq_refl eq_refl eq_refl)).
Defined.

Lemma misconfigured_process_idles_witness :
  (QUEUE_TYPE unknown_queue <> "rabbitmq" /\ QUEUE_TYPE unknown_queue <> "sqs")
  /\ main str_rejected other_rejected None None setup_succeeds unknown_queue
     = ([Did (Log INFO "Starting stock-tech-patterns processor...");
         Did (Log ERROR "Invalid QUEUE_TYPE specified. Use 'rabbitmq' or 'sqs'.")],
        Some (Done tt)).
Proof.
  assert (H : QUEUE_TYPE unknown_queue <> "rabbitmq" /\ QUEUE_TYPE unknown_queue <> "sqs")
    by (split; discriminate).
  split; [exact H|].
  exact (proj1
           (@misconfigured_process_idles str_rejected other_rejected None None
              setup_succeeds unknown_queue (or_introl H))).
Defined.
